(** * Braincast signal handlers: a shallow embedding and its properties

    The repository serves a trading directive from two near-duplicate
    serverless handlers ([src/unnamed/part_000] and [src/unnamed/part_001]).
    Each scrapes seven (up, down, neutral) indicator counts, derives a
    direction and a leverage, fetches a spot price and computes entry,
    target and stop levels; any exception is answered with a static
    directive.

    JavaScript numbers are modelled through the interface [Number], which
    has two instances:
    - [Exact]: rationals with exact arithmetic (the reading in which the
      specification's formulas are written);
    - [Binary64]: IEEE-754 doubles, the numbers the handlers really compute
      with.
    The handlers are written once, over the interface.  General statements
    are proved for [Exact]; concrete runs are evaluated in both. *)

From Stdlib Require Import ZArith NArith QArith Qround Lqa Lia List String Bool.
From Stdlib Require Import Floats.
From Stdlib Require Import Qabs.
Import ListNotations.

Set Implicit Arguments.

(** ** JavaScript numbers *)

Declare Scope js_scope.
Delimit Scope js_scope with js.

Class Number (num : Type) : Type := {
  of_Z : Z -> num;                 (* an integer literal, or a parsed integer *)
  js_add : num -> num -> num;
  js_sub : num -> num -> num;
  js_mul : num -> num -> num;
  js_div : num -> num -> num;
  js_gt : num -> num -> bool;      (* a > b *)
  js_le : num -> num -> bool;      (* a <= b *)
  js_not : num -> bool;            (* !a *)
  Math_round : num -> num;
  Math_min : num -> num -> num;
  Math_max : num -> num -> num
}.

Infix "+" := js_add : js_scope.
Infix "-" := js_sub : js_scope.
Infix "*" := js_mul : js_scope.
Infix "/" := js_div : js_scope.
Infix ">" := js_gt : js_scope.
Infix "<=" := js_le : js_scope.

(** A decimal literal [m / 10^k], such as [0.017 = decimal 17 3].  Both
    operands are integers that every instance represents exactly, and the
    division is correctly rounded, so in [Binary64] this is the double
    nearest to the literal, which is what the JavaScript parser produces. *)
Definition decimal {num} `{Number num} (m : Z) (k : nat) : num :=
  (of_Z m / of_Z (10 ^ Z.of_nat k))%js.

(** *** Exact rationals

    Sums and products never round or overflow.  A division by zero gives
    zero here, where JavaScript gives an infinity or NaN; neither handler
    divides by zero on an answered request: the consensus ratio is guarded
    by [highTotal > 0] and the leverage is at least 30. *)

Module ExactNum.

Definition round (x : Q) : Q := inject_Z (Qfloor (x + (1 # 2))%Q).
Definition min (a b : Q) : Q := if Qle_bool a b then a else b.
Definition max (a b : Q) : Q := if Qle_bool a b then b else a.

End ExactNum.

#[export] Instance Exact : Number Q := {
  of_Z := inject_Z;
  js_add := Qplus;
  js_sub := Qminus;
  js_mul := Qmult;
  js_div := Qdiv;
  js_gt := fun a b => negb (Qle_bool a b);
  js_le := Qle_bool;
  js_not := fun a => Qeq_bool a 0%Q;
  Math_round := ExactNum.round;
  Math_min := ExactNum.min;
  Math_max := ExactNum.max
}.

(** *** IEEE-754 binary64 *)

Module Binary64Num.

(** The double nearest to an integer (ties to even), infinite beyond the
    range: what [parseInt] and integer literals yield. *)
Definition of_Z (z : Z) : float :=
  SF2Prim (binary_normalize prec emax z 0 false).

(** [Math.round]: the integer nearest to [x], ties towards +infinity;
    NaN, the infinities, the zeros and integral values are returned
    unchanged, and a negative [x] that rounds to zero gives [-0]. *)
Definition round (x : float) : float :=
  match Prim2SF x with
  | S754_finite s m e =>
      if (0 <=? e)%Z then x
      else
        let v := if s then Z.neg m else Z.pos m in
        let r := ((2 * v + 2 ^ (- e)) / 2 ^ (1 - e))%Z in
        if (r =? 0)%Z then (if s then neg_zero else zero) else of_Z r
  | _ => x
  end.

(** [Math.min] and [Math.max] on two arguments: NaN if either is NaN. *)
Definition min (a b : float) : float :=
  if is_nan a then a else if is_nan b then b
  else if PrimFloat.ltb b a then b else a.
Definition max (a b : float) : float :=
  if is_nan a then a else if is_nan b then b
  else if PrimFloat.ltb a b then b else a.

End Binary64Num.

#[export] Instance Binary64 : Number float := {
  of_Z := Binary64Num.of_Z;
  js_add := PrimFloat.add;
  js_sub := PrimFloat.sub;
  js_mul := PrimFloat.mul;
  js_div := PrimFloat.div;
  js_gt := fun a b => PrimFloat.ltb b a;
  js_le := PrimFloat.leb;
  js_not := fun a => is_zero a || is_nan a;
  Math_round := Binary64Num.round;
  Math_min := Binary64Num.min;
  Math_max := Binary64Num.max
}.

(** ** Data shared by the two handlers *)

Inductive Direction : Type := LONG | SHORT.

(** One element of [summary]: [{ timeframe: tf, up, down, neutral }]. *)
Record Frame (num : Type) : Type := {
  timeframe : string;
  up : num;
  down : num;
  neutral : num
}.

(** The JSON object passed to [res.status(200).json(...)]. *)
Record Directive (num : Type) : Type := {
  signal : Direction;
  entryPrice : num;
  targetPrice : num;
  stopPrice : num;
  leverage : num
}.

Record Response (num : Type) : Type := {
  status : Z;
  json : Directive num
}.

(** [Array.prototype.slice(start, end)]: a negative index counts from the
    end, both indices are clamped to the array, and [end] defaults to the
    length. *)
Definition slice {A : Type} (start : Z) (stop : option Z) (l : list A) : list A :=
  let len := Z.of_nat (List.length l) in
  let rel (i : Z) := if (i <? 0)%Z then Z.max (len + i) 0 else Z.min i len in
  let k := rel start in
  let final := match stop with None => len | Some e => rel e end in
  firstn (Z.to_nat (final - k)) (skipn (Z.to_nat k) l).

(** ** Completions: values or exceptions

    The handlers run inside [try { ... } catch]; what is thrown is never
    inspected, so an abrupt completion carries no value. *)

Inductive Completion (A : Type) : Type :=
| Normal (a : A)
| Throw.
Arguments Throw {A}.

Definition bind {A B : Type} (c : Completion A) (k : A -> Completion B) : Completion B :=
  match c with
  | Normal a => k a
  | Throw => Throw
  end.

Notation "x <- c ;; k" := (bind c (fun x => k))
  (at level 61, c at next level, right associativity).

(** [try { c } catch { return fallback }]. *)
Definition try_catch {A : Type} (c : Completion A) (fallback : A) : A :=
  match c with
  | Normal a => a
  | Throw => fallback
  end.

(** ** The outside world of one request

    The page text is represented by what the handlers read from it: the
    digit groups captured, in order, by the successive matches of
    [/Up:\s*(\d+)\s*Down:\s*(\d+)\s*Neutral:\s*(\d+)/g].  A digit group is
    a natural number in decimal. *)

Definition Page : Type := list (N * N * N).

Record TAResponse : Type := {
  ta_ok : bool;                       (* taResponse.ok *)
  ta_text : Completion Page           (* await taResponse.text() *)
}.

(** What [priceData.bitcoin?.usd] finds in the parsed body. *)
Inductive PriceData (num : Type) : Type :=
| JsonNull                            (* the body is null: reading [.bitcoin] throws *)
| NoQuote                             (* [bitcoin] or [usd] is undefined or null *)
| Quote (usd : num).
Arguments JsonNull {num}.
Arguments NoQuote {num}.

Record PriceResponse (num : Type) : Type := {
  price_ok : bool;                            (* priceResp.ok *)
  price_json : Completion (PriceData num)     (* await priceResp.json() *)
}.

Record World (num : Type) : Type := {
  ta_fetch : Completion TAResponse;               (* await fetch(coinalyze) *)
  cheerio : Completion unit;                      (* await import('cheerio'); load(html) *)
  price_fetch : Completion (PriceResponse num)    (* await fetch(coingecko) *)
}.

Section Scraping.
Context {num : Type} `{Number num}.

(** [parseInt(match[i], 10)] on a digit group. *)
Definition parseInt (digits : N) : num := of_Z (Z.of_N digits).

(** The [while ((match = regex.exec(html)) !== null) matches.push(...)] loop. *)
Definition scan (html : Page) : list (num * num * num) :=
  map (fun '(u, d, n) => (parseInt u, parseInt d, parseInt n)) html.

Definition timeframes : list string :=
  ["5m"; "15m"; "1h"; "2h"; "4h"; "6h"; "1d"]%string.

(** [timeframes.map((tf, idx) => { const [up, down, neutral] =
    matches[idx] ?? [0, 0, 0]; return { timeframe: tf, up, down, neutral }; })] *)
Definition summarize (matches : list (num * num * num)) : list (Frame num) :=
  map (fun '(idx, tf) =>
         let '(up, down, neutral) :=
           match nth_error matches idx with
           | Some m => m
           | None => (of_Z 0, of_Z 0, of_Z 0)
           end in
         {| timeframe := tf; up := up; down := down; neutral := neutral |})
      (combine (seq 0 (List.length timeframes)) timeframes).

(** The price block, identical in both handlers:
    [let price = 0; try { ... if (priceResp.ok) { price =
    priceData.bitcoin?.usd ?? 0; } } catch { }]. *)
Definition fetched_price (w : World num) : num :=
  try_catch
    (priceResp <- price_fetch w ;;
     if price_ok priceResp then
       priceData <- price_json priceResp ;;
       match priceData with
       | JsonNull => Throw
       | NoQuote => Normal (of_Z 0)
       | Quote usd => Normal usd
       end
     else Normal (of_Z 0))
    (of_Z 0).

(** The [catch (err)] branch, identical in both handlers. *)
Definition static_response : Response num :=
  {| status := 200;
     json := {| signal := LONG;
                entryPrice := of_Z 119500;
                targetPrice := of_Z 121500;
                stopPrice := of_Z 119200;
                leverage := of_Z 30 |} |}.

End Scraping.

(** ** [src/unnamed/part_000]: direction from all seven timeframes *)

Module Part000.
Section Handler.
Context {num : Type} `{Number num}.
Local Open Scope js_scope.

(** Lines 56-65: [totalUp], [totalDown] and [direction]. *)
Definition resolve_direction (summary : list (Frame num)) : Direction :=
  let '(totalUp, totalDown) :=
    fold_left (fun '(totalUp, totalDown) f => (totalUp + up f, totalDown + down f))
              summary (of_Z 0, of_Z 0) in
  if totalUp > totalDown then LONG else SHORT.

(** Lines 71-89: [higherUp], [higherDown], [higherTotal],
    [consensusRatio] and [leverage]. *)
Definition resolve_leverage (direction : Direction) (higherFrames : list (Frame num)) : num :=
  let '(higherUp, higherDown, higherTotal) :=
    fold_left (fun '(higherUp, higherDown, higherTotal) f =>
                 (higherUp + up f, higherDown + down f, higherTotal + (up f + down f)))
              higherFrames (of_Z 0, of_Z 0, of_Z 0) in
  let consensusRatio :=
    if higherTotal > of_Z 0 then
      let aligned := match direction with LONG => higherUp | SHORT => higherDown end in
      aligned / higherTotal
    else of_Z 0 in
  let leverage := Math_round (of_Z 30 + of_Z 20 * consensusRatio) in
  Math_min (of_Z 50) (Math_max (of_Z 30) leverage).

(** Lines 107-110: [if (!price) price = 119500]. *)
Definition resolve_price (price : num) : num :=
  if js_not price then of_Z 119500 else price.

(** Lines 112-133: the levels and the object sent. *)
Definition directive (direction : Direction) (leverage price : num) : Directive num :=
  let entryPrice := price in
  let pctMove := decimal 17 3 in
  let targetPrice :=
    match direction with
    | LONG => entryPrice * (of_Z 1 + pctMove)
    | SHORT => entryPrice * (of_Z 1 - pctMove)
    end in
  let stopThreshold := decimal 15 2 / leverage in
  let stopPrice :=
    match direction with
    | LONG => entryPrice * (of_Z 1 - stopThreshold)
    | SHORT => entryPrice * (of_Z 1 + stopThreshold)
    end in
  {| signal := direction;
     entryPrice := Math_round entryPrice;
     targetPrice := Math_round targetPrice;
     stopPrice := Math_round stopPrice;
     leverage := leverage |}.

(** Lines 43-134, from the matches and the fetched price. *)
Definition compute (matches : list (num * num * num)) (price : num) : Directive num :=
  let summary := summarize matches in
  let direction := resolve_direction summary in
  let higherFrames := slice (-3) None summary in
  let leverage := resolve_leverage direction higherFrames in
  directive direction leverage (resolve_price price).

(** The body of the [try] block. *)
Definition body (w : World num) : Completion (Response num) :=
  taResponse <- ta_fetch w ;;
  if negb (ta_ok taResponse) then Throw
  else
    html <- ta_text taResponse ;;
    _ <- cheerio w ;;
    let matches := scan html in
    let price := fetched_price w in
    Normal {| status := 200; json := compute matches price |}.

Definition handler (w : World num) : Response num :=
  try_catch (body w) static_response.

End Handler.
End Part000.

(** ** [src/unnamed/part_001]: direction from the three lowest timeframes *)

Module Part001.
Section Handler.
Context {num : Type} `{Number num}.
Local Open Scope js_scope.

(** Lines 40-54: [lowUp], [lowDown] and [direction]. *)
Definition resolve_direction (lowFrames : list (Frame num)) : Direction :=
  let '(lowUp, lowDown) :=
    fold_left (fun '(lowUp, lowDown) f => (lowUp + up f, lowDown + down f))
              lowFrames (of_Z 0, of_Z 0) in
  if lowUp > lowDown then LONG
  else if lowDown > lowUp then SHORT
  else SHORT.

(** Lines 58-71: [highUpTotal], [highDownTotal], [highTotal],
    [consensusRatio] and [leverage]. *)
Definition resolve_leverage (direction : Direction) (highFrames : list (Frame num)) : num :=
  let '(highUpTotal, highDownTotal) :=
    fold_left (fun '(highUpTotal, highDownTotal) f =>
                 (highUpTotal + up f, highDownTotal + down f))
              highFrames (of_Z 0, of_Z 0) in
  let highTotal := highUpTotal + highDownTotal in
  let consensusRatio :=
    if highTotal > of_Z 0 then
      let aligned := match direction with LONG => highUpTotal | SHORT => highDownTotal end in
      aligned / highTotal
    else of_Z 0 in
  let leverage := of_Z 30 + of_Z 20 * consensusRatio in
  Math_max (of_Z 30) (Math_min (of_Z 50) (Math_round leverage)).

(** Lines 89-92: [if (!price || price <= 0) price = 113279]. *)
Definition resolve_price (price : num) : num :=
  if js_not price || (price <= of_Z 0) then of_Z 113279 else price.

(** Lines 94-112: the levels and the object sent. *)
Definition directive (direction : Direction) (leverage price : num) : Directive num :=
  let entryPrice := price in
  let targetPct := decimal 17 3 in
  let '(targetPrice, stopPrice) :=
    match direction with
    | LONG =>
        (Math_round (entryPrice * (of_Z 1 + targetPct)),
         Math_round (entryPrice * (of_Z 1 - decimal 15 2 / leverage)))
    | SHORT =>
        (Math_round (entryPrice * (of_Z 1 - targetPct)),
         Math_round (entryPrice * (of_Z 1 + decimal 15 2 / leverage)))
    end in
  {| signal := direction;
     entryPrice := entryPrice;
     targetPrice := targetPrice;
     stopPrice := stopPrice;
     leverage := leverage |}.

(** Lines 32-112, from the matches and the fetched price. *)
Definition compute (matches : list (num * num * num)) (price : num) : Directive num :=
  let summary := summarize matches in
  let lowFrames := slice 0 (Some 3%Z) summary in
  let direction := resolve_direction lowFrames in
  let highFrames := slice (-3) None summary in
  let leverage := resolve_leverage direction highFrames in
  directive direction leverage (resolve_price price).

(** The body of the [try] block. *)
Definition body (w : World num) : Completion (Response num) :=
  taResponse <- ta_fetch w ;;
  if negb (ta_ok taResponse) then Throw
  else
    html <- ta_text taResponse ;;
    _ <- cheerio w ;;
    let matches := scan html in
    let price := fetched_price w in
    Normal {| status := 200; json := compute matches price |}.

Definition handler (w : World num) : Response num :=
  try_catch (body w) static_response.

End Handler.
End Part001.

(** A request in which the page is served and holds [counts], whatever
    the price API does. *)
Definition serving {num : Type} (counts : Page) (price : Completion (PriceResponse num))
  : World num :=
  {| ta_fetch := Normal {| ta_ok := true; ta_text := Normal counts |};
     cheerio := Normal tt;
     price_fetch := price |}.

(** A request in which both services answer: the page holds [counts] and
    the price API quotes [usd]. *)
Definition answering {num : Type} (counts : Page) (usd : num) : World num :=
  serving counts (Normal {| price_ok := true; price_json := Normal (Quote usd) |}).

(** ** The specification's resolvers

    These definitions follow the specification's words (sections 4.1 to
    4.4), over exact rationals; the handlers are compared with them below. *)

Module Spec.
Local Open Scope Q_scope.

Definition Series : Type := list (Frame Q).

(** "Pads with zero-triples up to the fixed canonical label list when
    rawCounts is shorter; truncates silently if longer." *)
Definition build (rawCounts : list (N * N * N)) : Series :=
  map (fun '(tf, (u, d, n)) =>
         {| timeframe := tf;
            up := inject_Z (Z.of_N u);
            down := inject_Z (Z.of_N d);
            neutral := inject_Z (Z.of_N n) |})
      (combine timeframes (rawCounts ++ repeat (0%N, 0%N, 0%N) 7)).

(** A prefix of length [k] and a suffix of length [k]. *)
Definition leading (k : nat) (series : Series) : Series := firstn k series.
Definition trailing (k : nat) (series : Series) : Series :=
  skipn (List.length series - k) series.

Definition sum (count : Frame Q -> Q) (window : Series) : Q :=
  fold_right (fun f total => count f + total) 0 window.

Definition DirectionResolver (window : Series) : Direction :=
  match sum (@up Q) window ?= sum (@down Q) window with
  | Gt => LONG
  | Lt => SHORT
  | Eq => SHORT
  end.

Definition aligned (direction : Direction) (window : Series) : Q :=
  match direction with
  | LONG => sum (@up Q) window
  | SHORT => sum (@down Q) window
  end.

Definition non_aligned (direction : Direction) (window : Series) : Q :=
  match direction with
  | LONG => sum (@down Q) window
  | SHORT => sum (@up Q) window
  end.

Definition consensusRatio (direction : Direction) (window : Series) : Q :=
  let highTotal := sum (@up Q) window + sum (@down Q) window in
  if Qlt_le_dec 0 highTotal then aligned direction window / highTotal else 0.

(** Round half up: the greatest integer not above [x + 1/2]. *)
Definition round (x : Q) : Z := Qfloor (x + (1 # 2)).

Definition clamp (lo hi z : Z) : Z := Z.max lo (Z.min hi z).

Definition LeverageResolver (window : Series) (direction : Direction) : Z :=
  clamp 30 50 (round (30 + 20 * consensusRatio direction window)).

Definition targetPct : Q := 17 # 1000.
Definition stopThreshold (leverage : Q) : Q := (15 # 100) / leverage.

Definition PriceLevelCalculator (entryPrice : Q) (direction : Direction) (leverage : Q)
  : Z * Z :=
  match direction with
  | LONG => (round (entryPrice * (1 + targetPct)),
             round (entryPrice * (1 - stopThreshold leverage)))
  | SHORT => (round (entryPrice * (1 - targetPct)),
              round (entryPrice * (1 + stopThreshold leverage)))
  end.

End Spec.

(** ** Sample inputs *)

Definition tied7 : Page := repeat (6, 6, 0)%N 7.

Definition zero_frame : Frame Q :=
  {| timeframe := "4h"; up := 0; down := 0; neutral := 0 |}.

Definition tied_frame : Frame Q :=
  {| timeframe := "5m"; up := 6; down := 6; neutral := 0 |}.

(** The page cannot be fetched at all. *)
Definition unreachable {num : Type} `{Number num} : World num :=
  {| ta_fetch := Throw; cheerio := Normal tt; price_fetch := Throw |}.

Definition frame_of (u d : Z) : Frame Q :=
  {| timeframe := "1d"; up := inject_Z u; down := inject_Z d; neutral := 0 |}.

Definition weaker_window : list (Frame Q) := [frame_of 9 3; frame_of 2 0].
Definition stronger_window : list (Frame Q) := [frame_of 4 7; frame_of 7 1].

(** Every count of the window is non-negative. *)
Definition counts_nonneg (window : list (Frame Q)) : Prop :=
  Forall (fun f => (0 <= up f)%Q /\ (0 <= down f)%Q) window.

(** The target and the stop of a directive. *)
Definition levels {num : Type} (sent : Directive num) : num * num :=
  (targetPrice sent, stopPrice sent).

(** A one-frame window with the given counts, in doubles. *)
Definition frame64 (u d : Z) : Frame float :=
  {| timeframe := "1d"; up := of_Z u; down := of_Z d; neutral := of_Z 0 |}.

(** Both handlers' leverage blocks, run in doubles on the sums [u] and
    [d], give the double of the specification's leverage, for both
    directions. *)
Definition doubles_agree (u d : Z) : bool :=
  forallb (fun direction =>
             let expected : float := of_Z (Spec.LeverageResolver [frame_of u d] direction) in
             PrimFloat.eqb (Part001.resolve_leverage direction [frame64 u d]) expected
             && PrimFloat.eqb (Part000.resolve_leverage direction [frame64 u d]) expected)
          [LONG; SHORT].

Definition upto (n : nat) : list Z := map Z.of_nat (seq 0 (S n)).

(** The sums of the up and of the down counts of a window, accumulated
    from zero in the order of the window, in any number model. *)
Definition totals {num : Type} `{Number num} (window : list (Frame num)) : num * num :=
  fold_left (fun '(u, d) f => (u + up f, d + down f)%js) window (of_Z 0, of_Z 0).

(** The specification's leverage as a function of the aligned sum and the
    total of a window. *)
Definition leverage_of (aligned total : Q) : Z :=
  Spec.clamp 30 50
    (Spec.round (30 + 20 * (if Qlt_le_dec 0 total then aligned / total else 0))%Q).

(** ** Outcomes of the two acquisitions *)

(** The price the API delivers, if it delivers one. *)
Definition quoted {num : Type} (w : World num) : option num :=
  match price_fetch w with
  | Normal priceResp =>
      if price_ok priceResp then
        match price_json priceResp with
        | Normal (Quote usd) => Some usd
        | _ => None
        end
      else None
  | Throw => None
  end.

(** The page or the parser cannot be obtained: the fetch rejects, the
    status is not a success, reading the text rejects, or cheerio fails. *)
Definition series_unavailable {num : Type} (w : World num) : bool :=
  match ta_fetch w with
  | Throw => true
  | Normal taResponse =>
      negb (ta_ok taResponse)
      || match ta_text taResponse with Throw => true | Normal _ => false end
      || match cheerio w with Throw => true | Normal _ => false end
  end.

(** ** [src/api/btc-price.js]: the price endpoint *)

(** [{ price, change24h }]: the object the price endpoint sends, and the
    client's [BtcPrice] state. *)
Record BtcPrice (num : Type) : Type := {
  price : num;
  change24h : num
}.

Module BtcPriceApi.

(** What [data.bitcoin?.usd] and [data.bitcoin?.usd_24h_change] find in
    the parsed body; [None] stands for undefined or null. *)
Inductive TickerData (num : Type) : Type :=
| TickerNull                                  (* the body is null: reading [.bitcoin] throws *)
| Ticker (usd usd_24h_change : option num).
Arguments TickerNull {num}.

Record TickerResponse (num : Type) : Type := {
  ticker_ok : bool;                                (* response.ok *)
  ticker_json : Completion (TickerData num)        (* await response.json() *)
}.

Record Answer (num : Type) : Type := {
  answer_status : Z;
  answer_json : BtcPrice num
}.

Section Handler.
Context {num : Type} `{Number num}.

(** [v ?? d] on a value that is a number when present. *)
Definition nullish_or (v : option num) (d : num) : num :=
  match v with
  | Some x => x
  | None => d
  end.

(** The [catch (err)] branch: [{ price: 113279, change24h: -2.76 }]. *)
Definition fallback : Answer num :=
  {| answer_status := 200;
     answer_json := {| price := of_Z 113279; change24h := decimal (-276) 2 |} |}.

(** The body of the [try] block, on the outcome of the [fetch]. *)
Definition body (fetched : Completion (TickerResponse num)) : Completion (Answer num) :=
  response <- fetched ;;
  if negb (ticker_ok response) then Throw
  else
    data <- ticker_json response ;;
    match data with
    | TickerNull => Throw
    | Ticker usd usd_24h_change =>
        let price := nullish_or usd (of_Z 0) in
        let change24h := nullish_or usd_24h_change (of_Z 0) in
        Normal {| answer_status := 200;
                  answer_json := {| price := Math_round price; change24h := change24h |} |}
    end.

Definition handler (fetched : Completion (TickerResponse num)) : Answer num :=
  try_catch (body fetched) fallback.

(** The request fails before a ticker is read: the fetch rejects, the
    status is not a success, the body does not parse, or it is null. *)
Definition ticker_unavailable (fetched : Completion (TickerResponse num)) : bool :=
  match fetched with
  | Throw => true
  | Normal response =>
      negb (ticker_ok response)
      || match ticker_json response with
         | Throw | Normal TickerNull => true
         | Normal (Ticker _ _) => false
         end
  end.

End Handler.
End BtcPriceApi.

(** ** [src/src/App.tsx] and [src/unnamed/part_002]: the client component

    The two files differ in the address of the signal endpoint and in
    styling only; the component below is both. *)

Module Client.

(** A parsed JSON payload, or [undefined] where a property is missing.
    An object is the list of its properties; a name is looked up from the
    front. *)
#[local] Unset Elimination Schemes.
Inductive JValue (num : Type) : Type :=
| JUndefined
| JNull
| JBool (b : bool)
| JNum (n : num)
| JStr (s : string)
| JArr (items : list (JValue num))
| JObj (fields : list (string * JValue num)).
#[local] Set Elimination Schemes.
Arguments JUndefined {num}.
Arguments JNull {num}.
Arguments JBool {num} b.
Arguments JStr {num} s.

Inductive Screen : Type := Landing | Loading | Report.

(** The object passed to [setReport]: at run time its fields hold
    whatever the payload held. *)
Record ReportData (num : Type) : Type := {
  direction : JValue num;
  entryPrice : JValue num;
  targetPrice : JValue num;
  stopPrice : JValue num;
  leverage : JValue num
}.

(** The three [useState] cells. *)
Record State (num : Type) : Type := {
  screen : Screen;
  btcPrice : option (BtcPrice num);
  report : option (ReportData num)
}.

(** One call of a state setter. *)
Inductive Setter (num : Type) : Type :=
| SetScreen (s : Screen)
| SetBtcPrice (b : option (BtcPrice num))
| SetReport (r : option (ReportData num)).
Arguments SetScreen {num} s.

(** What the component returns: one of the three pages, or [null]. *)
Inductive View (num : Type) : Type :=
| LandingPage
| LoadingPage
| ReportPage (b : BtcPrice num) (r : ReportData num)
| Blank.
Arguments LandingPage {num}.
Arguments LoadingPage {num}.
Arguments Blank {num}.

Section Component.
Context {num : Type} `{Number num}.

(** [ToBoolean]. *)
Definition truthy (v : JValue num) : bool :=
  match v with
  | JUndefined | JNull => false
  | JBool b => b
  | JNum n => negb (js_not n)
  | JStr s => match s with EmptyString => false | String _ _ => true end
  | JArr _ | JObj _ => true
  end.

Definition nullish (v : JValue num) : bool :=
  match v with
  | JUndefined | JNull => true
  | _ => false
  end.

Fixpoint lookup (key : string) (fields : list (string * JValue num)) : JValue num :=
  match fields with
  | [] => JUndefined
  | (k, v) :: rest => if String.eqb k key then v else lookup key rest
  end.

(** [v.key], for the property names the component reads (none of them is
    a built-in property of a string, number, boolean or array): a
    TypeError on null and undefined. *)
Definition get (v : JValue num) (key : string) : Completion (JValue num) :=
  match v with
  | JUndefined | JNull => Throw
  | JObj fields => Normal (lookup key fields)
  | _ => Normal JUndefined
  end.

(** [v?.key]. *)
Definition get_opt (v : JValue num) (key : string) : Completion (JValue num) :=
  if nullish v then Normal JUndefined else get v key.

(** [a || b], [a && b] and [a ?? b]; the right operand is evaluated only
    when it is needed. *)
Definition or_else (a b : Completion (JValue num)) : Completion (JValue num) :=
  x <- a ;; if truthy x then Normal x else b.
Definition and_then (a b : Completion (JValue num)) : Completion (JValue num) :=
  x <- a ;; if truthy x then b else Normal x.
Definition coalesce (a b : Completion (JValue num)) : Completion (JValue num) :=
  x <- a ;; if nullish x then b else Normal x.

(** [fetch(url).then((res) => res.json()).catch(() => null)]. *)
Definition settled (fetched : Completion (JValue num)) : JValue num :=
  try_catch fetched JNull.

Definition default_price : BtcPrice num :=
  {| price := of_Z 113279; change24h := decimal (-276) 2 |}.

Definition default_report : ReportData num :=
  {| direction := JStr "LONG";
     entryPrice := JNum (of_Z 119500);
     targetPrice := JNum (of_Z 121500);
     stopPrice := JNum (of_Z 119200);
     leverage := JNum (of_Z 30) |}.

(** The first [if] of the [try] block: the call of [setBtcPrice]. *)
Definition price_update (priceData : JValue num) : Completion (Setter num) :=
  if truthy priceData then
    p <- get priceData "price" ;;
    match p with
    | JNum n =>
        c <- get priceData "change24h" ;;
        Normal (SetBtcPrice (Some {| price := Math_round n;
                                     change24h := match c with
                                                  | JNum x => x
                                                  | _ => of_Z 0
                                                  end |}))
    | _ => Normal (SetBtcPrice (Some default_price))
    end
  else Normal (SetBtcPrice (Some default_price)).

(** The second [if] of the [try] block: the call of [setReport]. *)
Definition report_update (reportData : JValue num) : Completion (Setter num) :=
  let signal_or_direction :=
    or_else (get reportData "signal") (get reportData "direction") in
  test <- and_then (Normal reportData) signal_or_direction ;;
  if truthy test then
    direction <- or_else signal_or_direction (Normal (JStr "LONG")) ;;
    entryPrice <-
      coalesce (coalesce (get reportData "entryPrice")
                         (technicalData <- get reportData "technicalData" ;;
                          get_opt technicalData "entryPrice"))
               (Normal (JNum (of_Z 119500))) ;;
    targetPrice <-
      coalesce (coalesce (get reportData "targetPrice") (get reportData "exitPrice"))
               (Normal (JNum (of_Z 121500))) ;;
    stopPrice <-
      coalesce (coalesce (get reportData "stopPrice") (get reportData "stopLoss"))
               (Normal (JNum (of_Z 119200))) ;;
    leverage <- coalesce (get reportData "leverage") (Normal (JNum (of_Z 30))) ;;
    Normal (SetReport (Some {| direction := direction;
                               entryPrice := entryPrice;
                               targetPrice := targetPrice;
                               stopPrice := stopPrice;
                               leverage := leverage |}))
  else Normal (SetReport (Some default_report)).

(** The setter calls of the [try] block, in order, and whether it
    completed without an exception. *)
Definition try_block (priceData reportData : JValue num) : list (Setter num) * bool :=
  match price_update priceData with
  | Throw => ([], false)
  | Normal first =>
      match report_update reportData with
      | Throw => ([first], false)
      | Normal second => ([first; second], true)
      end
  end.

(** All setter calls of [startBraincast], in order, for the outcomes of
    the two requests. *)
Definition startBraincast (priceFetched reportFetched : Completion (JValue num))
  : list (Setter num) :=
  let priceData := settled priceFetched in
  let reportData := settled reportFetched in
  [SetScreen Loading; SetBtcPrice None; SetReport None]
  ++ (let '(calls, completed) := try_block priceData reportData in
      if completed then calls
      else calls ++ [SetBtcPrice (Some default_price); SetReport (Some default_report)])
  ++ [SetScreen Report].

(** The setter call of [newReport]. *)
Definition newReport : list (Setter num) := [SetScreen Landing].

Definition set (st : State num) (call : Setter num) : State num :=
  match call with
  | SetScreen s => {| screen := s; btcPrice := btcPrice st; report := report st |}
  | SetBtcPrice b => {| screen := screen st; btcPrice := b; report := report st |}
  | SetReport r => {| screen := screen st; btcPrice := btcPrice st; report := r |}
  end.

Definition run (st : State num) (calls : list (Setter num)) : State num :=
  fold_left set calls st.

(** The [useState] initial values. *)
Definition initial : State num :=
  {| screen := Landing; btcPrice := None; report := None |}.

(** The component's return value: which page it shows. *)
Definition render (st : State num) : View num :=
  match screen st with
  | Landing => LandingPage
  | Loading => LoadingPage
  | Report =>
      match btcPrice st, report st with
      | Some b, Some r => ReportPage b r
      | _, _ => Blank
      end
  end.

(** The states the component passes through: from the initial state, by
    any number of setter calls of a [startBraincast] (possibly not yet
    finished) or of a [newReport]. *)
Inductive reachable : State num -> Prop :=
| reach_initial : reachable initial
| reach_start (st : State num) (priceFetched reportFetched : Completion (JValue num))
    (done : nat) :
    reachable st ->
    reachable (run st (firstn done (startBraincast priceFetched reportFetched)))
| reach_new (st : State num) :
    reachable st -> reachable (run st newReport).

End Component.

End Client.

(** The payload a directive makes on the wire:
    [res.status(200).json({ signal, entryPrice, targetPrice, stopPrice,
    leverage })] read back by [res.json()].  Rational numbers are finite,
    so every number is carried as it is. *)
Definition wire (sent : Directive Q) : Client.JValue Q :=
  Client.JObj [("signal"%string,
         Client.JStr match signal sent with LONG => "LONG" | SHORT => "SHORT" end);
        ("entryPrice"%string, Client.JNum (entryPrice sent));
        ("targetPrice"%string, Client.JNum (targetPrice sent));
        ("stopPrice"%string, Client.JNum (stopPrice sent));
        ("leverage"%string, Client.JNum (leverage sent))].

(** The payload of the price endpoint on the wire. *)
Definition wire_price (sent : BtcPrice Q) : Client.JValue Q :=
  Client.JObj [("price"%string, Client.JNum (price sent));
        ("change24h"%string, Client.JNum (change24h sent))].

(** The report as the client shows a directive it received unchanged. *)
Definition shown (sent : Directive Q) : Client.ReportData Q :=
  {| Client.direction := Client.JStr match signal sent with LONG => "LONG" | SHORT => "SHORT" end;
     Client.entryPrice := Client.JNum (entryPrice sent);
     Client.targetPrice := Client.JNum (targetPrice sent);
     Client.stopPrice := Client.JNum (stopPrice sent);
     Client.leverage := Client.JNum (leverage sent) |}.

(** [Math.abs(report.targetPrice - report.entryPrice) / report.entryPrice
    * 100] of the report page, on numeric fields. *)
Definition targetPercent (entry target : Q) : Q :=
  (Qabs (target - entry) / entry * 100)%Q.

(** ** The regular expression of the two signal handlers

    [/Up:\s*(\d+)\s*Down:\s*(\d+)\s*Neutral:\s*(\d+)/g], run by the
    [while ((match = regex.exec(html)) !== null)] loop of part_000 (lines
    34-39) and part_001 (lines 19-28).  A string is the list of its UTF-16
    code units.  Every quantifier of the expression is followed by
    something its own class excludes (a digit after [\s*], a space or a
    letter after [\d+]), so giving back characters never helps and
    matching is the longest run at each step.  The [Page] of a text is the
    list [matches_of] computes. *)

Module Regex.

Definition CodeUnit : Type := N.

Definition codes (text : string) : list CodeUnit :=
  map Ascii.N_of_ascii (list_ascii_of_string text).

(** [\s]: the white space and line terminator code units of ECMAScript. *)
Definition is_space (c : CodeUnit) : bool :=
  existsb (N.eqb c)
          [9; 10; 11; 12; 13; 32; 160; 5760; 8232; 8233; 8239; 8287; 12288; 65279]%N
  || (8192 <=? c)%N && (c <=? 8202)%N.

(** [\d]. *)
Definition is_digit (c : CodeUnit) : bool := (48 <=? c)%N && (c <=? 57)%N.

(** [\s*]: what is left after the longest run of spaces. *)
Fixpoint skip_spaces (s : list CodeUnit) : list CodeUnit :=
  match s with
  | c :: rest => if is_space c then skip_spaces rest else s
  | [] => []
  end.

(** A literal such as [Up:]: what is left after it, if the text starts
    with it. *)
Fixpoint literal (lit s : list CodeUnit) : option (list CodeUnit) :=
  match lit, s with
  | [], _ => Some s
  | l :: lit', c :: rest => if N.eqb l c then literal lit' rest else None
  | _ :: _, [] => None
  end.

(** The longest run of digits, and what is left after it. *)
Fixpoint digit_run (s : list CodeUnit) : list CodeUnit * list CodeUnit :=
  match s with
  | c :: rest =>
      if is_digit c then let '(run, remaining) := digit_run rest in (c :: run, remaining)
      else ([], s)
  | [] => ([], [])
  end.

(** The digit group as [parseInt(group, 10)] reads it: its decimal value. *)
Definition value (group : list CodeUnit) : N :=
  fold_left (fun acc c => 10 * acc + (c - 48))%N group 0%N.

(** [(\d+)]. *)
Definition group (s : list CodeUnit) : option (N * list CodeUnit) :=
  match digit_run s with
  | ([], _) => None
  | (run, remaining) => Some (value run, remaining)
  end.

(** [name\s*(\d+)]. *)
Definition field (name : string) (s : list CodeUnit) : option (N * list CodeUnit) :=
  match literal (codes name) s with
  | Some rest => group (skip_spaces rest)
  | None => None
  end.

(** A match of the whole expression at the start of [s]: the three
    parsed groups and what is left after the match. *)
Definition match_here (s : list CodeUnit) : option (N * N * N * list CodeUnit) :=
  match field "Up:" s with
  | Some (u, s1) =>
      match field "Down:" (skip_spaces s1) with
      | Some (d, s2) =>
          match field "Neutral:" (skip_spaces s2) with
          | Some (n, s3) => Some (u, d, n, s3)
          | None => None
          end
      | None => None
      end
  | None => None
  end.

(** The [exec] loop: the leftmost match, then on from its end.  Every
    step consumes a code unit, so the length of the text is fuel enough. *)
Fixpoint exec_all (fuel : nat) (s : list CodeUnit) : Page :=
  match fuel with
  | O => []
  | S fuel' =>
      match s with
      | [] => []
      | _ :: rest =>
          match match_here s with
          | Some (u, d, n, remaining) => (u, d, n) :: exec_all fuel' remaining
          | None => exec_all fuel' rest
          end
      end
  end.

Definition matches_of (html : list CodeUnit) : Page :=
  exec_all (List.length html) html.

(** A row as the page prints it, from its three digit groups:
    [Up: 6 Down: 6 Neutral: 0]. *)
Definition row (groups : list CodeUnit * list CodeUnit * list CodeUnit) : list CodeUnit :=
  let '(u, d, n) := groups in
  codes "Up: " ++ u ++ codes " Down: " ++ d ++ codes " Neutral: " ++ n.

(** Rows, each followed by the separator [sep]. *)
Definition rows (sep : CodeUnit)
  (groups : list (list CodeUnit * list CodeUnit * list CodeUnit)) : list CodeUnit :=
  List.concat (map (fun g => row g ++ [sep]) groups).

(** A non-empty run of digits. *)
Definition is_group (g : list CodeUnit) : Prop :=
  g <> [] /\ Forall (fun c => is_digit c = true) g.

Definition are_groups (g : list CodeUnit * list CodeUnit * list CodeUnit) : Prop :=
  let '(u, d, n) := g in is_group u /\ is_group d /\ is_group n.

Definition values (g : list CodeUnit * list CodeUnit * list CodeUnit) : N * N * N :=
  let '(u, d, n) := g in (value u, value d, value n).

(** A run of white space. *)
Definition is_blank (w : list CodeUnit) : Prop :=
  Forall (fun c => is_space c = true) w.

(** A row with any white space where the expression allows it. *)
Definition spaced_row (w1 w2 w3 w4 w5 : list CodeUnit)
  (groups : list CodeUnit * list CodeUnit * list CodeUnit) : list CodeUnit :=
  let '(u, d, n) := groups in
  codes "Up:" ++ w1 ++ u ++ w2 ++ codes "Down:" ++ w3 ++ d ++ w4
  ++ codes "Neutral:" ++ w5 ++ n.

(** The text does not go on with a digit. *)
Definition no_digit_ahead (s : list CodeUnit) : Prop :=
  match s with
  | c :: _ => is_digit c = false
  | [] => True
  end.

End Regex.

(** ** Payloads as the client reads them *)

Section Payloads.
Context {num : Type} `{Number num}.

(** [a ?? b ?? d] and [a || b || d] on values already read. *)
Definition first_present (a b d : Client.JValue num) : Client.JValue num :=
  if Client.nullish a then (if Client.nullish b then d else b) else a.
Definition first_truthy (a b d : Client.JValue num) : Client.JValue num :=
  if Client.truthy a then a else if Client.truthy b then b else d.

(** [technicalData?.entryPrice] on the value of [technicalData]. *)
Definition nested_entry (technicalData : Client.JValue num) : Client.JValue num :=
  match technicalData with
  | Client.JObj inner => Client.lookup "entryPrice" inner
  | _ => Client.JUndefined
  end.

(** The payload has neither a truthy [signal] nor a truthy [direction]:
    it is not an object, or both are missing, null, empty, zero or false. *)
Definition no_signal (reportData : Client.JValue num) : bool :=
  match reportData with
  | Client.JObj fields =>
      negb (Client.truthy (Client.lookup "signal" fields))
      && negb (Client.truthy (Client.lookup "direction" fields))
  | _ => true
  end.

(** The payload has no numeric [price]. *)
Definition no_price (priceData : Client.JValue num) : bool :=
  match priceData with
  | Client.JObj fields =>
      match Client.lookup "price" fields with
      | Client.JNum _ => false
      | _ => true
      end
  | _ => true
  end.

(** No field of the report is null or undefined. *)
Definition complete (r : Client.ReportData num) : bool :=
  negb (Client.nullish (Client.direction r))
  && negb (Client.nullish (Client.entryPrice r))
  && negb (Client.nullish (Client.targetPrice r))
  && negb (Client.nullish (Client.stopPrice r))
  && negb (Client.nullish (Client.leverage r)).

End Payloads.

(** On the report screen both state cells hold data. *)
Definition has_data {num : Type} (st : Client.State num) : Prop :=
  Client.screen st = Client.Report ->
  exists b r, Client.btcPrice st = Some b /\ Client.report st = Some r.

(** A rational that is an integer. *)
Definition integral (x : Q) : Prop := exists z : Z, x = inject_Z z.

(** ** Further sample inputs *)

(** The up and down counts of a match, the neutral count set to zero. *)
Definition without_neutral (page : Page) : Page :=
  map (fun '(u, d, _) => (u, d, 0%N)) page.

(** The up and down counts of a frame. *)
Definition votes {num : Type} (f : Frame num) : num * num := (up f, down f).

(** * Properties *)

(** ** The two number models on sample values *)

(** [Math.round] in doubles: halves go up, also below zero; the largest
    double below one half goes to zero; the largest non-integral double
    goes up. *)
Example round_binary64 :
  map Math_round
      [2.5; -2.5; 0.5; -0.5; 1.5; 0x1.fffffffffffffp-2; 4503599627370495.5; 119948.125]%float
  = [3; -2; 1; -0; 2; 0; 4503599627370496; 119948]%float.
Proof. vm_compute. reflexivity. Qed.

(** The decimal literals of the handlers, as the doubles a JavaScript
    parser reads them. *)
Example decimal_binary64 :
  (decimal 17 3, decimal 15 2) = (0x1.16872b020c49cp-6, 0x1.3333333333333p-3)%float.
Proof. vm_compute. reflexivity. Qed.

Example decimal_exact :
  (decimal 17 3 == 17 # 1000)%Q /\ (decimal 15 2 == 15 # 100)%Q.
Proof. split; reflexivity. Qed.

(** On every pair of window sums up to 40 (three timeframes of twelve
    indicators reach 36), doubles and exact arithmetic give the same
    leverage. *)
Lemma doubles_agree_upto_40 :
  forallb (fun u => forallb (doubles_agree u) (upto 40)) (upto 40) = true.
Proof. vm_compute. reflexivity. Qed.

(** ** Arrays *)

Lemma slice_prefix (A : Type) (k : nat) (l : list A) :
  slice 0 (Some (Z.of_nat k)) l = firstn k l.
Proof.
  unfold slice. cbv zeta. cbn [Z.ltb Z.compare].
  destruct (Z.ltb_spec (Z.of_nat k) 0); [lia|].
  rewrite (Z.min_l 0) by lia. cbn [Z.to_nat skipn]. rewrite Z.sub_0_r.
  destruct (Nat.le_gt_cases k (List.length l)).
  - rewrite Z.min_l by lia. now rewrite Nat2Z.id.
  - rewrite Z.min_r by lia. rewrite Nat2Z.id.
    rewrite !firstn_all2 by lia. reflexivity.
Qed.

Lemma slice_suffix (A : Type) (k : nat) (l : list A) :
  (0 < k)%nat ->
  slice (- Z.of_nat k) None l = skipn (List.length l - k) l.
Proof.
  intros Hk. unfold slice. cbv zeta.
  destruct (Z.ltb_spec (- Z.of_nat k) 0); [|lia].
  set (len := List.length l).
  assert (Hs : Z.to_nat (Z.max (Z.of_nat len + - Z.of_nat k) 0) = (len - k)%nat) by lia.
  rewrite Hs. apply firstn_all2. rewrite length_skipn. fold len. lia.
Qed.

(** ** Fields of the object sent by part_001 *)

Lemma signal_part001 (num : Type) `{Number num} (d : Direction) (l p : num) :
  signal (Part001.directive d l p) = d.
Proof. now destruct d. Qed.

Lemma leverage_part001_sent (num : Type) `{Number num} (d : Direction) (l p : num) :
  leverage (Part001.directive d l p) = l.
Proof. now destruct d. Qed.

Lemma entry_part001 (num : Type) `{Number num} (d : Direction) (l p : num) :
  entryPrice (Part001.directive d l p) = p.
Proof. now destruct d. Qed.

(** ** Exact arithmetic *)

Section ExactFacts.
Local Open Scope Q_scope.

Lemma gt_exact (a b : Q) : js_gt a b = true <-> b < a.
Proof.
  cbn. rewrite negb_true_iff, <- not_true_iff_false, Qle_bool_iff.
  split; [apply Qnot_le_lt | apply Qlt_not_le].
Qed.

Lemma gt_exact_false (a b : Q) : js_gt a b = false <-> a <= b.
Proof. cbn. now rewrite negb_false_iff, Qle_bool_iff. Qed.

Lemma sum_cons (count : Frame Q -> Q) (f : Frame Q) (window : list (Frame Q)) :
  Spec.sum count (f :: window) = count f + Spec.sum count window.
Proof. reflexivity. Qed.

(** Both handlers' [forEach] loops accumulate the window's sums. *)
Lemma totals_pair (window : list (Frame Q)) (u0 d0 : Q) :
  let r := fold_left (fun '(u, d) f => (js_add u (up f), js_add d (down f)))
                     window (u0, d0) in
  fst r == u0 + Spec.sum (@up Q) window /\ snd r == d0 + Spec.sum (@down Q) window.
Proof.
  revert u0 d0. induction window as [|f window IH]; intros u0 d0.
  - cbn. split; ring.
  - destruct (IH (u0 + up f) (d0 + down f)) as [Hu Hd].
    cbv zeta in *. cbn [fold_left js_add Exact].
    split; [rewrite Hu | rewrite Hd]; rewrite sum_cons; ring.
Qed.

Lemma totals_triple (window : list (Frame Q)) (u0 d0 t0 : Q) :
  let r := fold_left (fun '(u, d, t) f =>
                        (js_add u (up f), js_add d (down f), js_add t (js_add (up f) (down f))))
                     window (u0, d0, t0) in
  fst (fst r) == u0 + Spec.sum (@up Q) window /\
  snd (fst r) == d0 + Spec.sum (@down Q) window /\
  snd r == t0 + (Spec.sum (@up Q) window + Spec.sum (@down Q) window).
Proof.
  revert u0 d0 t0. induction window as [|f window IH]; intros u0 d0 t0.
  - cbn. repeat split; ring.
  - destruct (IH (u0 + up f) (d0 + down f) (t0 + (up f + down f))) as (Hu & Hd & Ht).
    cbv zeta in *. cbn [fold_left js_add Exact].
    repeat split; [rewrite Hu | rewrite Hd | rewrite Ht]; rewrite !sum_cons; ring.
Qed.

Lemma leverage_of_comp (a a' t t' : Q) :
  a == a' -> t == t' -> leverage_of a t = leverage_of a' t'.
Proof.
  intros Ha Ht. unfold leverage_of, Spec.round.
  destruct (Qlt_le_dec 0 t) as [L|L], (Qlt_le_dec 0 t') as [L'|L'].
  - f_equal. apply Qfloor_comp. now rewrite Ha, Ht.
  - rewrite Ht in L. exfalso. now apply (Qlt_not_le _ _ L).
  - rewrite Ht in L. exfalso. now apply (Qlt_not_le _ _ L').
  - reflexivity.
Qed.

Lemma spec_leverage_of (window : Spec.Series) (direction : Direction) :
  Spec.LeverageResolver window direction =
  leverage_of (Spec.aligned direction window)
              (Spec.sum (@up Q) window + Spec.sum (@down Q) window).
Proof. reflexivity. Qed.

Lemma le_bool_inject (a b : Z) : Qle_bool (inject_Z a) (inject_Z b) = (a <=? b)%Z.
Proof. unfold Qle_bool. cbn. now rewrite !Z.mul_1_r. Qed.

Lemma min_inject (a b : Z) : Math_min (inject_Z a) (inject_Z b) = inject_Z (Z.min a b).
Proof.
  cbn. unfold ExactNum.min. rewrite le_bool_inject.
  destruct (Z.leb_spec a b); f_equal; lia.
Qed.

Lemma max_inject (a b : Z) : Math_max (inject_Z a) (inject_Z b) = inject_Z (Z.max a b).
Proof.
  cbn. unfold ExactNum.max. rewrite le_bool_inject.
  destruct (Z.leb_spec a b); f_equal; lia.
Qed.

(** What the consensus block of either handler computes, given sums
    that equal the window's. *)
Lemma ratio_exact (a t : Q) :
  (if js_gt t (of_Z 0) then js_div a t else of_Z 0)
  == (if Qlt_le_dec 0 t then a / t else 0).
Proof.
  destruct (js_gt t (of_Z 0)) eqn:E; destruct (Qlt_le_dec 0 t) as [L|L];
    try reflexivity; exfalso.
  - apply (gt_exact t 0) in E. now apply (Qlt_not_le _ _ E).
  - apply (gt_exact_false t 0) in E. now apply (Qlt_not_le _ _ L).
Qed.

Lemma leverage_part001 (direction : Direction) (window : list (Frame Q)) :
  Part001.resolve_leverage direction window
  = inject_Z (Spec.LeverageResolver window direction).
Proof.
  rewrite spec_leverage_of. unfold Part001.resolve_leverage.
  pose proof (totals_pair window 0 0) as T. cbv zeta in T.
  change (of_Z 0) with 0 in *.
  destruct (fold_left _ window (0, 0)) as [hu hd]. cbn [fst snd] in T.
  destruct T as [Hu Hd]. rewrite Qplus_0_l in Hu, Hd.
  change (of_Z 50) with (inject_Z 50). change (of_Z 30) with (inject_Z 30).
  cbn [Math_round Exact]. unfold ExactNum.round.
  rewrite min_inject, max_inject. f_equal.
  unfold leverage_of, Spec.clamp, Spec.round. f_equal. f_equal.
  apply Qfloor_comp.
  change (js_add (inject_Z 30) (js_mul (of_Z 20) ?x)) with (30 + 20 * x).
  rewrite ratio_exact.
  assert (Ht : js_add hu hd == Spec.sum (@up Q) window + Spec.sum (@down Q) window)
    by (cbn; now rewrite Hu, Hd).
  assert (Ha : match direction with LONG => hu | SHORT => hd end
               == Spec.aligned direction window) by now destruct direction.
  destruct (Qlt_le_dec 0 (js_add hu hd)) as [L|L],
           (Qlt_le_dec 0 (Spec.sum (@up Q) window + Spec.sum (@down Q) window)) as [L'|L'].
  - now rewrite Ha, Ht.
  - rewrite Ht in L. exfalso. now apply (Qlt_not_le _ _ L).
  - rewrite Ht in L. exfalso. now apply (Qlt_not_le _ _ L').
  - reflexivity.
Qed.

Lemma leverage_part000 (direction : Direction) (window : list (Frame Q)) :
  Part000.resolve_leverage direction window
  = inject_Z (Spec.LeverageResolver window direction).
Proof.
  rewrite spec_leverage_of. unfold Part000.resolve_leverage.
  pose proof (totals_triple window 0 0 0) as T. cbv zeta in T.
  change (of_Z 0) with 0 in *.
  destruct (fold_left _ window (0, 0, 0)) as [[hu hd] ht]. cbn [fst snd] in T.
  destruct T as (Hu & Hd & Ht). rewrite Qplus_0_l in Hu, Hd, Ht.
  change (of_Z 50) with (inject_Z 50). change (of_Z 30) with (inject_Z 30).
  cbn [Math_round Exact]. unfold ExactNum.round.
  rewrite max_inject, min_inject. f_equal.
  unfold leverage_of, Spec.clamp, Spec.round.
  match goal with
  | |- Z.min 50 (Z.max 30 (Qfloor ?x)) = Z.max 30 (Z.min 50 (Qfloor ?y)) =>
      enough (E : x == y) by (rewrite (Qfloor_comp _ _ E); lia)
  end.
  apply Qplus_comp; [|reflexivity].
  change (js_add (inject_Z 30) (js_mul (of_Z 20) ?x)) with (30 + 20 * x).
  rewrite ratio_exact.
  assert (Ha : match direction with LONG => hu | SHORT => hd end
               == Spec.aligned direction window) by now destruct direction.
  destruct (Qlt_le_dec 0 ht) as [L|L],
           (Qlt_le_dec 0 (Spec.sum (@up Q) window + Spec.sum (@down Q) window)) as [L'|L'].
  - now rewrite Ha, Ht.
  - rewrite Ht in L. exfalso. now apply (Qlt_not_le _ _ L).
  - rewrite Ht in L. exfalso. now apply (Qlt_not_le _ _ L').
  - reflexivity.
Qed.

(** The direction blocks against the specification's three-way rule. *)
Lemma direction_part001 (window : list (Frame Q)) :
  Part001.resolve_direction window = Spec.DirectionResolver window.
Proof.
  unfold Part001.resolve_direction, Spec.DirectionResolver.
  pose proof (totals_pair window 0 0) as T. cbv zeta in T.
  change (of_Z 0) with 0 in *.
  destruct (fold_left _ window (0, 0)) as [lu ld]. cbn [fst snd] in T.
  destruct T as [Hu Hd]. rewrite Qplus_0_l in Hu, Hd.
  rewrite <- Hu, <- Hd.
  destruct (lu ?= ld) eqn:C.
  - apply Qeq_alt in C.
    assert (G : js_gt lu ld = false) by (apply gt_exact_false; rewrite C; apply Qle_refl).
    rewrite G. now destruct (js_gt ld lu).
  - apply Qlt_alt in C.
    assert (G : js_gt lu ld = false) by (apply gt_exact_false; now apply Qlt_le_weak).
    rewrite G. now destruct (js_gt ld lu).
  - apply Qgt_alt in C. apply gt_exact in C. now rewrite C.
Qed.

Lemma direction_part000 (window : list (Frame Q)) :
  Part000.resolve_direction window = Spec.DirectionResolver window.
Proof.
  unfold Part000.resolve_direction, Spec.DirectionResolver.
  pose proof (totals_pair window 0 0) as T. cbv zeta in T.
  change (of_Z 0) with 0 in *.
  destruct (fold_left _ window (0, 0)) as [tu td]. cbn [fst snd] in T.
  destruct T as [Hu Hd]. rewrite Qplus_0_l in Hu, Hd.
  rewrite <- Hu, <- Hd.
  destruct (tu ?= td) eqn:C.
  - apply Qeq_alt in C.
    assert (G : js_gt tu td = false) by (apply gt_exact_false; rewrite C; apply Qle_refl).
    now rewrite G.
  - apply Qlt_alt in C.
    assert (G : js_gt tu td = false) by (apply gt_exact_false; now apply Qlt_le_weak).
    now rewrite G.
  - apply Qgt_alt in C. apply gt_exact in C. now rewrite C.
Qed.

(** The [summary] array against the specification's series. *)
Lemma summarize_build (page : Page) :
  summarize (scan page) = Spec.build page.
Proof.
  unfold summarize, Spec.build, timeframes, scan, parseInt.
  do 7 (destruct page as [|[[? ?] ?] page]; [reflexivity|]).
  reflexivity.
Qed.

Lemma build_length (page : Page) : List.length (Spec.build page) = 7%nat.
Proof.
  unfold Spec.build. rewrite length_map, length_combine, length_app, repeat_length.
  change (List.length timeframes) with 7%nat. lia.
Qed.

End ExactFacts.

(** ** The tied run (specification, testable property 7) *)

(** The directive the specification announces for seven tied triples and
    a spot price of 119500, in a given number model. *)
Definition announced_tied_directive {num : Type} `{Number num} : Directive num :=
  {| signal := SHORT;
     entryPrice := of_Z 119500;
     targetPrice := Math_round (of_Z 119500 * decimal 983 3)%js;
     stopPrice := Math_round (of_Z 119500 * decimal 1005 3)%js;
     leverage := of_Z 30 |}.

(** The directive both handlers send for that input. *)
Definition tied_directive {num : Type} `{Number num} : Directive num :=
  {| signal := SHORT;
     entryPrice := of_Z 119500;
     targetPrice := of_Z 117469;
     stopPrice := of_Z 119948;
     leverage := of_Z 40 |}.

(** C1, as stated, fails: for seven (6, 6, 0) triples and spot price
    119500 neither handler sends the announced directive, in exact
    arithmetic or in doubles; the leverage sent is not 30. *)
Lemma tied_run_is_not_announced :
  json (Part001.handler (answering tied7 (of_Z 119500 : Q))) <> announced_tied_directive /\
  json (Part000.handler (answering tied7 (of_Z 119500 : Q))) <> announced_tied_directive /\
  json (Part001.handler (answering tied7 (of_Z 119500 : float))) <> announced_tied_directive /\
  json (Part000.handler (answering tied7 (of_Z 119500 : float))) <> announced_tied_directive.
Proof.
  repeat split; intros E; apply (f_equal (@leverage _)) in E.
  - vm_compute in E. discriminate E.
  - vm_compute in E. discriminate E.
  - apply (f_equal Prim2SF) in E. vm_compute in E. discriminate E.
  - apply (f_equal Prim2SF) in E. vm_compute in E. discriminate E.
Qed.

(** C1 (amended): for seven (6, 6, 0) triples and spot price 119500 both
    handlers send direction SHORT, leverage 40, entry 119500, target
    round(119500 x 0.983) = 117469 and stop round(119500 x 1.00375) =
    119948, in exact arithmetic and in doubles. *)
Theorem tied_run_directive :
  json (Part001.handler (answering tied7 (of_Z 119500 : Q))) = tied_directive /\
  json (Part000.handler (answering tied7 (of_Z 119500 : Q))) = tied_directive /\
  json (Part001.handler (answering tied7 (of_Z 119500 : float))) = tied_directive /\
  json (Part000.handler (answering tied7 (of_Z 119500 : float))) = tied_directive /\
  Math_round (of_Z 119500 * decimal 983 3)%js = (of_Z 117469 : Q) /\
  Math_round (of_Z 119500 * decimal 100375 5)%js = (of_Z 119948 : Q) /\
  Math_round (of_Z 119500 * decimal 983 3)%js = (of_Z 117469 : float) /\
  Math_round (of_Z 119500 * decimal 100375 5)%js = (of_Z 119948 : float).
Proof. repeat split; vm_compute; reflexivity. Qed.

(** ** Windows of the pipeline *)


(** ** The entry price *)

Lemma fetched_price_quoted (num : Type) `{Number num} (w : World num) :
  fetched_price w = match quoted w with Some usd => usd | None => of_Z 0 end.
Proof.
  unfold fetched_price, quoted.
  destruct (price_fetch w) as [[ok [[| |usd]|]]|]; try destruct ok; reflexivity.
Qed.

(** part_001 keeps a quoted price exactly when it is positive. *)
Lemma part001_resolve_price (price : Q) :
  Part001.resolve_price price = if Qlt_le_dec 0 price then price else 113279%Q.
Proof.
  unfold Part001.resolve_price. cbn [js_not js_le Exact].
  change (of_Z 0) with 0%Q. change (of_Z 113279) with 113279%Q.
  destruct (Qlt_le_dec 0 price) as [L|L].
  - assert (E1 : Qeq_bool price 0 = false).
    { apply not_true_iff_false. intros E. apply Qeq_bool_iff in E.
      rewrite E in L. now apply (Qlt_irrefl 0). }
    assert (E2 : Qle_bool price 0 = false).
    { apply not_true_iff_false. intros E. apply Qle_bool_iff in E.
      now apply (Qlt_not_le _ _ L). }
    now rewrite E1, E2.
  - apply Qle_bool_iff in L. rewrite L. now rewrite orb_true_r.
Qed.

Lemma part001_entry_price (w : World Q) :
  series_unavailable w = false ->
  entryPrice (json (Part001.handler w)) =
  match quoted w with
  | Some usd => if Qlt_le_dec 0 usd then usd else 113279%Q
  | None => 113279%Q
  end.
Proof.
  unfold series_unavailable, Part001.handler, Part001.body. intros A.
  destruct (ta_fetch w) as [[ok [page|]]|]; try discriminate A;
    destruct ok; try discriminate A;
    destruct (cheerio w) as [[]|]; try discriminate A.
  cbn [bind negb try_catch json ta_ok ta_text]. unfold Part001.compute.
  rewrite entry_part001, part001_resolve_price, fetched_price_quoted.
  destruct (quoted w); reflexivity.
Qed.

(** part_000 replaces only a zero price. *)
Lemma part000_resolve_price (price : Q) :
  ~ (price == 0)%Q -> Part000.resolve_price price = price.
Proof.
  intros NZ. unfold Part000.resolve_price. cbn [js_not Exact].
  destruct (Qeq_bool price 0) eqn:E; [|reflexivity].
  apply Qeq_bool_iff in E. contradiction.
Qed.

(** C3, at the failing input: when the price API quotes -1, part_000
    sends -1 as entry price (and as target and stop), in exact arithmetic
    and in doubles, where part_001 sends the fallback 113279. *)
Theorem part000_negative_quote_is_entry :
  entryPrice (json (Part000.handler (answering tied7 (of_Z (-1) : Q)))) = of_Z (-1) /\
  entryPrice (json (Part000.handler (answering tied7 (of_Z (-1) : float)))) = of_Z (-1) /\
  entryPrice (json (Part001.handler (answering tied7 (of_Z (-1) : Q)))) = of_Z 113279 /\
  entryPrice (json (Part001.handler (answering tied7 (of_Z (-1) : float)))) = of_Z 113279.
Proof. repeat split; vm_compute; reflexivity. Qed.

(** ** Direction *)



(** The tie-break does not depend on exact arithmetic: in doubles too,
    equal accumulated sums give SHORT. *)
Lemma ltb_irrefl (x : float) : PrimFloat.ltb x x = false.
Proof.
  rewrite ltb_spec. unfold SFltb.
  destruct (Prim2SF x) as [s | s | | s m e]; cbn;
    try reflexivity; try (destruct s; reflexivity).
  destruct s; rewrite Z.compare_refl, Pos.compare_cont_refl; reflexivity.
Qed.

Lemma binary64_tie_is_short (window : list (Frame float)) :
  fst (totals window) = snd (totals window) ->
  Part001.resolve_direction window = SHORT /\
  Part000.resolve_direction window = SHORT.
Proof.
  unfold totals, Part001.resolve_direction, Part000.resolve_direction.
  destruct (fold_left _ window _) as [u d]. cbn [fst snd js_gt Binary64].
  intros ->. now rewrite ltb_irrefl.
Qed.

(** ** Leverage *)




(** ** Totality *)



(** ** Monotonicity of the leverage *)

Section Monotone.
Local Open Scope Q_scope.

Lemma sums_nonneg (window : list (Frame Q)) :
  counts_nonneg window ->
  0 <= Spec.sum (@up Q) window /\ 0 <= Spec.sum (@down Q) window.
Proof.
  induction 1 as [|f window [Hu Hd] _ [IHu IHd]].
  - split; apply Qle_refl.
  - rewrite !sum_cons. split; lra.
Qed.

Lemma total_aligned (direction : Direction) (window : list (Frame Q)) :
  Spec.sum (@up Q) window + Spec.sum (@down Q) window
  == Spec.aligned direction window + Spec.non_aligned direction window.
Proof. destruct direction; cbn; ring. Qed.

(** The consensus ratio grows with the aligned sum. *)
Lemma ratio_monotone (a a' n : Q) :
  0 <= a -> 0 <= n -> a <= a' ->
  (if Qlt_le_dec 0 (a + n) then a / (a + n) else 0)
  <= (if Qlt_le_dec 0 (a' + n) then a' / (a' + n) else 0).
Proof.
  intros Ha Hn Haa.
  destruct (Qlt_le_dec 0 (a + n)) as [L|L], (Qlt_le_dec 0 (a' + n)) as [L'|L'].
  - apply Qle_shift_div_r; [exact L|].
    setoid_replace (a' / (a' + n) * (a + n)) with (a' * (a + n) / (a' + n))
      by (field; lra).
    apply Qle_shift_div_l; [exact L'|].
    assert (P : a * n <= a' * n) by (apply Qmult_le_compat_r; assumption).
    setoid_replace (a * (a' + n)) with (a * a' + a * n) by ring.
    setoid_replace (a' * (a + n)) with (a * a' + a' * n) by ring.
    lra.
  - lra.
  - apply Qle_shift_div_l; [exact L'|]. lra.
  - apply Qle_refl.
Qed.

Lemma leverage_of_monotone (a a' n : Q) :
  0 <= a -> 0 <= n -> a <= a' ->
  (leverage_of a (a + n) <= leverage_of a' (a' + n))%Z.
Proof.
  intros Ha Hn Haa. unfold leverage_of, Spec.clamp, Spec.round.
  pose proof (ratio_monotone Ha Hn Haa) as R.
  apply Z.max_le_compat_l, Z.min_le_compat_l, Qfloor_resp_le. lra.
Qed.

Lemma spec_leverage_monotone (direction : Direction) (w w' : list (Frame Q)) :
  counts_nonneg w -> counts_nonneg w' ->
  Spec.non_aligned direction w == Spec.non_aligned direction w' ->
  Spec.aligned direction w <= Spec.aligned direction w' ->
  (Spec.LeverageResolver w direction <= Spec.LeverageResolver w' direction)%Z.
Proof.
  intros N N' E A. rewrite !spec_leverage_of.
  rewrite (leverage_of_comp (Qeq_refl _) (total_aligned direction w)).
  rewrite (leverage_of_comp (Qeq_refl _) (total_aligned direction w')).
  rewrite (@leverage_of_comp _ _ (_ + Spec.non_aligned direction w') _
             (Qeq_refl _) (Qplus_comp _ _ (Qeq_refl _) _ _ (Qeq_sym _ _ E))).
  destruct (sums_nonneg N) as [Hu Hd].
  apply leverage_of_monotone; try assumption; destruct direction; assumption.
Qed.

End Monotone.



(** ** Price levels *)

Section Levels.
Local Open Scope Q_scope.

(** Rounding half up picks the integer nearest to [x], the upper one of
    two equally near. *)
Lemma round_nearest (x : Q) :
  x - (1 # 2) < inject_Z (Spec.round x) <= x + (1 # 2).
Proof.
  unfold Spec.round.
  pose proof (Qfloor_le (x + (1 # 2))) as Lo.
  pose proof (Qlt_floor (x + (1 # 2))) as Hi.
  rewrite inject_Z_plus in Hi. change (inject_Z 1) with 1 in Hi.
  split; lra.
Qed.

Lemma round_inject (z : Z) : Spec.round (inject_Z z) = z.
Proof.
  pose proof (round_nearest (inject_Z z)) as [Lo Hi].
  assert (A : (z < Spec.round (inject_Z z) + 1)%Z).
  { rewrite Zlt_Qlt, inject_Z_plus. change (inject_Z 1) with 1. lra. }
  assert (B : (Spec.round (inject_Z z) < z + 1)%Z).
  { rewrite Zlt_Qlt, inject_Z_plus. change (inject_Z 1) with 1. lra. }
  lia.
Qed.

Lemma round_above (z : Z) (x : Q) : inject_Z z <= x -> (z <= Spec.round x)%Z.
Proof.
  intros L. pose proof (round_nearest x) as [Lo Hi].
  assert (A : (z < Spec.round x + 1)%Z).
  { rewrite Zlt_Qlt, inject_Z_plus. change (inject_Z 1) with 1. lra. }
  lia.
Qed.

Lemma round_below (z : Z) (x : Q) : x <= inject_Z z -> (Spec.round x <= z)%Z.
Proof.
  intros L. pose proof (round_nearest x) as [Lo Hi].
  assert (A : (Spec.round x < z + 1)%Z).
  { rewrite Zlt_Qlt, inject_Z_plus. change (inject_Z 1) with 1. lra. }
  lia.
Qed.

(** The two literals, in exact arithmetic. *)
Lemma targetPct_exact : decimal 17 3 == Spec.targetPct.
Proof. reflexivity. Qed.

Lemma stopThreshold_exact (leverage : Q) :
  js_div (decimal 15 2) leverage == Spec.stopThreshold leverage.
Proof. unfold Spec.stopThreshold. apply Qmult_comp; reflexivity. Qed.

(** The levels sent by part_001 are the specification's. *)
Lemma levels_part001 (direction : Direction) (leverage entry : Q) :
  let sent := Part001.directive direction leverage entry in
  targetPrice sent = inject_Z (fst (Spec.PriceLevelCalculator entry direction leverage)) /\
  stopPrice sent = inject_Z (snd (Spec.PriceLevelCalculator entry direction leverage)).
Proof.
  destruct direction; cbn -[decimal Spec.round Spec.targetPct Spec.stopThreshold];
    unfold ExactNum.round, Spec.round; split; f_equal; apply Qfloor_comp;
    change (of_Z 1) with 1;
    now rewrite ?targetPct_exact, ?stopThreshold_exact.
Qed.

(** part_000 rounds when it sends, with the same result. *)
Lemma levels_part000 (direction : Direction) (leverage entry : Q) :
  let sent := Part000.directive direction leverage entry in
  targetPrice sent = inject_Z (fst (Spec.PriceLevelCalculator entry direction leverage)) /\
  stopPrice sent = inject_Z (snd (Spec.PriceLevelCalculator entry direction leverage)).
Proof.
  destruct direction; cbn -[decimal Spec.round Spec.targetPct Spec.stopThreshold];
    unfold ExactNum.round, Spec.round; split; f_equal; apply Qfloor_comp;
    change (of_Z 1) with 1;
    now rewrite ?targetPct_exact, ?stopThreshold_exact.
Qed.

End Levels.


(** C10: for every positive integer entry price and every integer
    leverage from 30 to 50, the levels either handler computes bracket the
    entry: stop <= entry <= target for LONG, target <= entry <= stop for
    SHORT. *)
Theorem levels_bracket_entry (direction : Direction) (entry lev : Z) :
  (0 < entry)%Z -> (30 <= lev <= 50)%Z ->
  let sent1 := Part001.directive direction (inject_Z lev) (inject_Z entry) in
  let sent0 := Part000.directive direction (inject_Z lev) (inject_Z entry) in
  match direction with
  | LONG =>
      (stopPrice sent1 <= entryPrice sent1 <= targetPrice sent1)%Q /\
      (stopPrice sent0 <= entryPrice sent0 <= targetPrice sent0)%Q
  | SHORT =>
      (targetPrice sent1 <= entryPrice sent1 <= stopPrice sent1)%Q /\
      (targetPrice sent0 <= entryPrice sent0 <= stopPrice sent0)%Q
  end.
Proof.
  intros E L. cbv zeta.
  pose proof (levels_part001 direction (inject_Z lev) (inject_Z entry)) as L1.
  pose proof (levels_part000 direction (inject_Z lev) (inject_Z entry)) as L0.
  cbv zeta in L1, L0. destruct L1 as [T1 S1], L0 as [T0 S0].
  rewrite T1, S1, T0, S0, entry_part001.
  assert (E0 : entryPrice (Part000.directive direction (inject_Z lev) (inject_Z entry))
               = inject_Z entry).
  { cbn [Part000.directive entryPrice Math_round Exact]. unfold ExactNum.round.
    f_equal. apply round_inject. }
  rewrite E0. clear T1 S1 T0 S0 E0.
  assert (Ep : (0 < inject_Z entry)%Q) by (rewrite <- (Zlt_Qlt 0); exact E).
  assert (Lp : (0 < inject_Z lev)%Q) by (rewrite <- (Zlt_Qlt 0); lia).
  assert (Sp : (0 <= Spec.stopThreshold (inject_Z lev))%Q).
  { unfold Spec.stopThreshold. apply Qle_shift_div_l; [exact Lp|]. lra. }
  assert (P : (0 <= inject_Z entry * Spec.stopThreshold (inject_Z lev))%Q)
    by (apply Qmult_le_0_compat; [apply Qlt_le_weak|]; assumption).
  set (e := inject_Z entry) in *. set (s := Spec.stopThreshold (inject_Z lev)) in *.
  assert (Lo : (e * (1 - s) <= e)%Q)
    by (setoid_replace (e * (1 - s))%Q with (e - e * s)%Q by ring; lra).
  assert (Hi : (e <= e * (1 + s))%Q)
    by (setoid_replace (e * (1 + s))%Q with (e + e * s)%Q by ring; lra).
  assert (Tu : (e <= e * (1 + Spec.targetPct))%Q) by (unfold Spec.targetPct; lra).
  assert (Td : (e * (1 - Spec.targetPct) <= e)%Q) by (unfold Spec.targetPct; lra).
  subst e.
  destruct direction; cbn [Spec.PriceLevelCalculator fst snd];
    rewrite <- !Zle_Qle; repeat split;
    solve [apply round_above; assumption | apply round_below; assumption].
Qed.

Lemma levels_bracket_entry_witness :
  (0 < 119500)%Z /\ (30 <= 37 <= 50)%Z /\
  let sent1 := Part001.directive LONG (inject_Z 37) (inject_Z 119500) in
  let sent0 := Part000.directive LONG (inject_Z 37) (inject_Z 119500) in
  (stopPrice sent1 <= entryPrice sent1 <= targetPrice sent1)%Q /\
  (stopPrice sent0 <= entryPrice sent0 <= targetPrice sent0)%Q.
Proof.
  split; [lia|]. split; [lia|].
  apply (@levels_bracket_entry LONG 119500 37); lia.
Defined.

(** * Further properties of the signal handlers *)

(** ** The series *)

(** X1: whatever the number of matches, [summary] has exactly seven
    frames, labelled 5m, 15m, 1h, 2h, 4h, 6h, 1d in this order. *)
Theorem summary_has_seven_labelled_frames
  (num : Type) `{Number num} (matches : list (num * num * num)) :
  map (@timeframe num) (summarize matches) = timeframes /\
  List.length (summarize matches) = 7%nat.
Proof.
  unfold summarize, timeframes.
  do 7 (destruct matches as [|[[? ?] ?] matches]; [split; reflexivity|]).
  split; reflexivity.
Qed.

Lemma summarize_first_seven (num : Type) `{Number num} (page : Page) :
  summarize (scan page) = summarize (scan (firstn 7 page)).
Proof.
  unfold summarize, timeframes, scan.
  do 7 (destruct page as [|[[? ?] ?] page]; [reflexivity|]).
  reflexivity.
Qed.

Lemma handler_part001_serving (num : Type) `{Number num}
  (page : Page) (price : Completion (PriceResponse num)) :
  Part001.handler (serving page price) =
  {| status := 200;
     json := Part001.compute (scan page) (fetched_price (serving page price)) |}.
Proof. reflexivity. Qed.

Lemma handler_part000_serving (num : Type) `{Number num}
  (page : Page) (price : Completion (PriceResponse num)) :
  Part000.handler (serving page price) =
  {| status := 200;
     json := Part000.compute (scan page) (fetched_price (serving page price)) |}.
Proof. reflexivity. Qed.

Lemma fetched_price_serving (num : Type) `{Number num}
  (page page' : Page) (price : Completion (PriceResponse num)) :
  fetched_price (serving page price) = fetched_price (serving page' price).
Proof. reflexivity. Qed.

(** X2: matches after the seventh never reach the answer: two pages with
    the same first seven matches get the same response from either
    handler, in any number model. *)
Theorem matches_after_seventh_ignored (num : Type) `{Number num}
  (page page' : Page) (price : Completion (PriceResponse num)) :
  firstn 7 page = firstn 7 page' ->
  Part001.handler (serving page price) = Part001.handler (serving page' price) /\
  Part000.handler (serving page price) = Part000.handler (serving page' price).
Proof.
  intros E. rewrite !handler_part001_serving, !handler_part000_serving.
  unfold Part001.compute, Part000.compute.
  rewrite (summarize_first_seven page), (summarize_first_seven page'), E.
  rewrite (fetched_price_serving page page' price).
  split; reflexivity.
Qed.

Lemma matches_after_seventh_ignored_witness :
  firstn 7 (tied7 ++ [(12, 0, 0)%N]) = firstn 7 tied7 /\
  Part001.handler (serving (tied7 ++ [(12, 0, 0)%N]) (Throw : Completion (PriceResponse Q)))
  = Part001.handler (serving tied7 Throw) /\
  Part000.handler (serving (tied7 ++ [(12, 0, 0)%N]) (Throw : Completion (PriceResponse Q)))
  = Part000.handler (serving tied7 Throw).
Proof.
  split; [reflexivity|].
  apply (@matches_after_seventh_ignored Q _ (tied7 ++ [(12, 0, 0)%N]) tied7 Throw).
  reflexivity.
Defined.

(** ** Neutral counts *)

Lemma slice_map (A B : Type) (f : A -> B) (start : Z) (stop : option Z) (l : list A) :
  map f (slice start stop l) = slice start stop (map f l).
Proof. unfold slice. now rewrite length_map, skipn_map, firstn_map. Qed.

Lemma fold_pair_votes (num : Type) `{Number num} (w w' : list (Frame num)) (acc : num * num) :
  map votes w = map votes w' ->
  fold_left (fun '(u, d) f => (u + up f, d + down f)%js) w acc
  = fold_left (fun '(u, d) f => (u + up f, d + down f)%js) w' acc.
Proof.
  revert w' acc. induction w as [|f w IH]; intros [|f' w'] acc E;
    try discriminate E; [reflexivity|].
  cbn in E. injection E as Eu Ed Ew. destruct acc as [u d].
  cbn [fold_left]. rewrite Eu, Ed. now apply IH.
Qed.

Lemma fold_triple_votes (num : Type) `{Number num}
  (w w' : list (Frame num)) (acc : num * num * num) :
  map votes w = map votes w' ->
  fold_left (fun '(u, d, t) f => (u + up f, d + down f, t + (up f + down f))%js) w acc
  = fold_left (fun '(u, d, t) f => (u + up f, d + down f, t + (up f + down f))%js) w' acc.
Proof.
  revert w' acc. induction w as [|f w IH]; intros [|f' w'] acc E;
    try discriminate E; [reflexivity|].
  cbn in E. injection E as Eu Ed Ew. destruct acc as [[u d] t].
  cbn [fold_left]. rewrite Eu, Ed. now apply IH.
Qed.

(** Both handlers read the up and down counts of the series only. *)
Lemma compute_votes (num : Type) `{Number num}
  (matches matches' : list (num * num * num)) (fetched : num) :
  map votes (summarize matches) = map votes (summarize matches') ->
  Part001.compute matches fetched = Part001.compute matches' fetched /\
  Part000.compute matches fetched = Part000.compute matches' fetched.
Proof.
  intros E.
  assert (Lo : map votes (slice 0 (Some 3%Z) (summarize matches))
               = map votes (slice 0 (Some 3%Z) (summarize matches')))
    by (rewrite !slice_map; now rewrite E).
  assert (Hi : map votes (slice (-3) None (summarize matches))
               = map votes (slice (-3) None (summarize matches')))
    by (rewrite !slice_map; now rewrite E).
  unfold Part001.compute, Part000.compute,
    Part001.resolve_direction, Part000.resolve_direction,
    Part001.resolve_leverage, Part000.resolve_leverage.
  rewrite (fold_pair_votes _ _ _ Lo), (fold_pair_votes _ _ _ Hi),
    (fold_pair_votes _ _ _ E), (fold_triple_votes _ _ _ Hi).
  split; reflexivity.
Qed.

Lemma votes_without_neutral (num : Type) `{Number num} (page : Page) :
  map votes (summarize (scan page))
  = map votes (summarize (scan (without_neutral page))).
Proof.
  unfold summarize, timeframes, scan, without_neutral.
  do 7 (destruct page as [|[[? ?] ?] page]; [reflexivity|]).
  reflexivity.
Qed.

(** X3: neutral counts never reach the answer: setting every neutral count
    of the page to zero leaves the response of either handler unchanged,
    in any number model. *)
Theorem neutral_counts_ignored (num : Type) `{Number num}
  (page : Page) (price : Completion (PriceResponse num)) :
  Part001.handler (serving page price)
  = Part001.handler (serving (without_neutral page) price) /\
  Part000.handler (serving page price)
  = Part000.handler (serving (without_neutral page) price).
Proof.
  rewrite !handler_part001_serving, !handler_part000_serving.
  rewrite (fetched_price_serving page (without_neutral page) price).
  destruct (compute_votes (fetched_price (serving (without_neutral page) price))
              (votes_without_neutral page)) as [E1 E0].
  rewrite E1, E0. split; reflexivity.
Qed.

(** ** What each window reads *)

Lemma low_frames_first_three (num : Type) `{Number num} (page : Page) :
  slice 0 (Some 3%Z) (summarize (scan page))
  = slice 0 (Some 3%Z) (summarize (scan (firstn 3 page))).
Proof.
  unfold summarize, timeframes, scan.
  do 3 (destruct page as [|[[? ?] ?] page]; [reflexivity|]).
  reflexivity.
Qed.

(** X4: the direction part_001 sends depends on the first three matches
    only: two pages that agree on them get the same signal, whatever the
    later matches and whatever the price request does, in any number
    model. *)
Theorem part001_signal_reads_first_three (num : Type) `{Number num}
  (page page' : Page) (price price' : Completion (PriceResponse num)) :
  firstn 3 page = firstn 3 page' ->
  signal (json (Part001.handler (serving page price)))
  = signal (json (Part001.handler (serving page' price'))).
Proof.
  intros E. rewrite !handler_part001_serving. cbn [json].
  unfold Part001.compute. rewrite !signal_part001.
  now rewrite (low_frames_first_three page), (low_frames_first_three page'), E.
Qed.

Lemma part001_signal_reads_first_three_witness :
  firstn 3 (repeat (6, 6, 0)%N 3 ++ repeat (0, 12, 0)%N 4) = firstn 3 tied7 /\
  signal (json (Part001.handler
                  (serving (repeat (6, 6, 0)%N 3 ++ repeat (0, 12, 0)%N 4)
                           (Throw : Completion (PriceResponse float)))))
  = signal (json (Part001.handler (answering tied7 (of_Z 119500 : float)))).
Proof.
  split; [reflexivity|].
  apply (@part001_signal_reads_first_three float _
           (repeat (6, 6, 0)%N 3 ++ repeat (0, 12, 0)%N 4) tied7).
  reflexivity.
Defined.

(** Case analysis on the first [n] matches of a page. *)
Ltac split_page page n :=
  lazymatch n with
  | O => idtac
  | S ?k => destruct page as [|[[? ?] ?] page]; [|split_page page k]
  end.

Lemma high_frames_last_three (num : Type) `{Number num} (page page' : Page) :
  skipn 4 (firstn 7 page) = skipn 4 (firstn 7 page') ->
  slice (-3) None (summarize (scan page)) = slice (-3) None (summarize (scan page')).
Proof.
  intros E.
  rewrite (summarize_first_seven page), (summarize_first_seven page').
  unfold summarize, timeframes, scan.
  split_page page 7%nat; split_page page' 7%nat;
    cbn in E; try discriminate E;
    try (injection E as; subst); reflexivity.
Qed.

(** X5: the leverage either handler sends depends on the direction and on
    the fifth, sixth and seventh matches only: two pages that agree on
    these and lead to the same direction get the same leverage, in any
    number model. *)
Theorem leverage_reads_last_three (num : Type) `{Number num}
  (page page' : Page) (price price' : Completion (PriceResponse num)) :
  skipn 4 (firstn 7 page) = skipn 4 (firstn 7 page') ->
  (signal (json (Part001.handler (serving page price)))
   = signal (json (Part001.handler (serving page' price'))) ->
   leverage (json (Part001.handler (serving page price)))
   = leverage (json (Part001.handler (serving page' price')))) /\
  (signal (json (Part000.handler (serving page price)))
   = signal (json (Part000.handler (serving page' price'))) ->
   leverage (json (Part000.handler (serving page price)))
   = leverage (json (Part000.handler (serving page' price')))).
Proof.
  intros E. rewrite !handler_part001_serving, !handler_part000_serving. cbn [json].
  unfold Part001.compute, Part000.compute.
  rewrite !signal_part001, !leverage_part001_sent.
  unfold Part000.directive. cbn [signal leverage].
  rewrite (high_frames_last_three page page' E).
  split; intros ->; reflexivity.
Qed.

Lemma leverage_reads_last_three_witness :
  let page := (1, 0, 0)%N :: repeat (6, 6, 0)%N 6 in
  let page' := repeat (3, 0, 5)%N 4 ++ repeat (6, 6, 0)%N 3 in
  skipn 4 (firstn 7 page) = skipn 4 (firstn 7 page') /\
  signal (json (Part000.handler (serving page (Throw : Completion (PriceResponse Q)))))
  = signal (json (Part000.handler (serving page' (Throw : Completion (PriceResponse Q))))) /\
  leverage (json (Part000.handler (serving page (Throw : Completion (PriceResponse Q)))))
  = leverage (json (Part000.handler (serving page' (Throw : Completion (PriceResponse Q))))).
Proof.
  cbv zeta.
  assert (E : skipn 4 (firstn 7 ((1, 0, 0)%N :: repeat (6, 6, 0)%N 6))
              = skipn 4 (firstn 7 (repeat (3, 0, 5)%N 4 ++ repeat (6, 6, 0)%N 3)))
    by reflexivity.
  assert (S : signal (json (Part000.handler
                 (serving ((1, 0, 0)%N :: repeat (6, 6, 0)%N 6)
                          (Throw : Completion (PriceResponse Q)))))
              = signal (json (Part000.handler
                 (serving (repeat (3, 0, 5)%N 4 ++ repeat (6, 6, 0)%N 3)
                          (Throw : Completion (PriceResponse Q))))))
    by reflexivity.
  exact (conj E (conj S
           (proj2 (@leverage_reads_last_three Q _ _ _ Throw Throw E) S))).
Defined.

(** X6: a page with at most four matches leaves the three highest
    timeframes without votes, so either handler sends leverage 30,
    whatever the matches and the price request, in exact arithmetic and
    in doubles. *)
Theorem sparse_page_gives_leverage_30 (page : Page)
  (price : Completion (PriceResponse Q)) (price64 : Completion (PriceResponse float)) :
  (List.length page <= 4)%nat ->
  leverage (json (Part001.handler (serving page price))) = of_Z 30 /\
  leverage (json (Part000.handler (serving page price))) = of_Z 30 /\
  leverage (json (Part001.handler (serving page price64))) = of_Z 30 /\
  leverage (json (Part000.handler (serving page price64))) = of_Z 30.
Proof.
  intros L. rewrite !handler_part001_serving, !handler_part000_serving. cbn [json].
  unfold Part001.compute, Part000.compute.
  rewrite !leverage_part001_sent.
  unfold Part000.directive. cbn [leverage].
  assert (Z : forall (num : Type) (N : Number num),
             slice (-3) None (summarize (scan page))
             = slice (-3) None (summarize (scan ([] : Page)))).
  { intros num N. apply high_frames_last_three.
    do 5 (destruct page as [|? page]; [reflexivity|]). cbn in L. lia. }
  rewrite !Z.
  repeat split;
    match goal with
    | |- context [Part001.resolve_leverage ?d _] => destruct d
    | |- context [Part000.resolve_leverage ?d _] => destruct d
    end; vm_compute; reflexivity.
Qed.

Lemma sparse_page_gives_leverage_30_witness :
  (List.length [(12, 0, 0); (0, 12, 0); (7, 5, 0); (9, 1, 2)]%N <= 4)%nat /\
  leverage (json (Part001.handler
                    (serving [(12, 0, 0); (0, 12, 0); (7, 5, 0); (9, 1, 2)]%N
                             (Throw : Completion (PriceResponse Q))))) = of_Z 30.
Proof.
  split; [cbn; lia|].
  apply (@sparse_page_gives_leverage_30
           [(12, 0, 0); (0, 12, 0); (7, 5, 0); (9, 1, 2)]%N Throw Throw).
  cbn; lia.
Defined.

(** ** The price *)

(** X7: when the page is served and the price API delivers no quote (the
    request rejects, the status is not a success, the body does not parse,
    is null or lacks [bitcoin.usd]), part_001 sends entry price 113279 and
    part_000 sends 119500, in exact arithmetic and in doubles. *)
Theorem absent_quote_gives_default_entry (page : Page)
  (price : Completion (PriceResponse Q)) (price64 : Completion (PriceResponse float)) :
  quoted (serving page price) = None ->
  quoted (serving page price64) = None ->
  entryPrice (json (Part001.handler (serving page price))) = of_Z 113279 /\
  entryPrice (json (Part000.handler (serving page price))) = of_Z 119500 /\
  entryPrice (json (Part001.handler (serving page price64))) = of_Z 113279 /\
  entryPrice (json (Part000.handler (serving page price64))) = of_Z 119500.
Proof.
  intros A A64. rewrite !handler_part001_serving, !handler_part000_serving. cbn [json].
  unfold Part001.compute, Part000.compute. rewrite !entry_part001.
  unfold Part000.directive. cbn [entryPrice].
  rewrite !fetched_price_quoted, A, A64.
  repeat split; vm_compute; reflexivity.
Qed.

Lemma absent_quote_gives_default_entry_witness :
  let silent (num : Type) : Completion (PriceResponse num) :=
    Normal {| price_ok := true; price_json := Normal NoQuote |} in
  quoted (serving tied7 (silent Q)) = None /\
  quoted (serving tied7 (silent float)) = None /\
  entryPrice (json (Part001.handler (serving tied7 (silent Q)))) = of_Z 113279 /\
  entryPrice (json (Part000.handler (serving tied7 (silent Q)))) = of_Z 119500 /\
  entryPrice (json (Part001.handler (serving tied7 (silent float)))) = of_Z 113279 /\
  entryPrice (json (Part000.handler (serving tied7 (silent float)))) = of_Z 119500.
Proof.
  cbv zeta. split; [reflexivity|]. split; [reflexivity|].
  apply (@absent_quote_gives_default_entry tied7
           (Normal {| price_ok := true; price_json := Normal NoQuote |})
           (Normal {| price_ok := true; price_json := Normal NoQuote |}));
    reflexivity.
Defined.

(** ** Shape of every answer *)

Lemma unavailable_is_static (num : Type) `{Number num} (w : World num) :
  series_unavailable w = true ->
  Part001.handler w = static_response /\ Part000.handler w = static_response.
Proof.
  unfold Part001.handler, Part000.handler, Part001.body, Part000.body,
    series_unavailable.
  destruct (ta_fetch w) as [[ok [page|]]|]; destruct (cheerio w) as [[]|];
    try destruct ok; cbn; intros A; try discriminate A; split; reflexivity.
Qed.

Lemma available_is_computed (num : Type) `{Number num} (w : World num) :
  series_unavailable w = false ->
  exists page : Page,
    Part001.handler w =
      {| status := 200; json := Part001.compute (scan page) (fetched_price w) |} /\
    Part000.handler w =
      {| status := 200; json := Part000.compute (scan page) (fetched_price w) |}.
Proof.
  unfold Part001.handler, Part000.handler, Part001.body, Part000.body,
    series_unavailable.
  destruct (ta_fetch w) as [[ok [page|]]|]; destruct (cheerio w) as [[]|];
    try destruct ok; cbn; intros A; try discriminate A.
  exists page. split; reflexivity.
Qed.

Section Shape.
Local Open Scope Q_scope.

Lemma round_integral (x : Q) : integral (Math_round x).
Proof. now exists (Qfloor (x + (1 # 2))). Qed.

Lemma part001_levels_integral (direction : Direction) (lev entry : Q) :
  integral (targetPrice (Part001.directive direction lev entry)) /\
  integral (stopPrice (Part001.directive direction lev entry)).
Proof. destruct direction; split; apply round_integral. Qed.

Lemma spec_leverage_bounds (window : Spec.Series) (direction : Direction) :
  (30 <= Spec.LeverageResolver window direction <= 50)%Z.
Proof. unfold Spec.LeverageResolver, Spec.clamp. lia. Qed.

End Shape.


(** ** Stop and leverage *)

Section StopAndLeverage.
Local Open Scope Q_scope.

Lemma stopThreshold_antitone (lev lev' : Q) :
  0 < lev -> lev <= lev' -> Spec.stopThreshold lev' <= Spec.stopThreshold lev.
Proof.
  intros P L. unfold Spec.stopThreshold.
  assert (P' : 0 < lev') by lra.
  apply Qle_shift_div_r; [exact P'|].
  setoid_replace ((15 # 100) / lev * lev') with ((15 # 100) * lev' / lev)
    by (field; lra).
  apply Qle_shift_div_l; [exact P|]. lra.
Qed.

Lemma round_monotone (x y : Q) : x <= y -> (Spec.round x <= Spec.round y)%Z.
Proof. intros L. unfold Spec.round. apply Qfloor_resp_le. lra. Qed.

Lemma spec_stop_tightens (entry lev lev' : Q) :
  0 < entry -> 0 < lev -> lev <= lev' ->
  (snd (Spec.PriceLevelCalculator entry LONG lev)
   <= snd (Spec.PriceLevelCalculator entry LONG lev'))%Z /\
  (snd (Spec.PriceLevelCalculator entry SHORT lev')
   <= snd (Spec.PriceLevelCalculator entry SHORT lev))%Z.
Proof.
  intros E P L. pose proof (stopThreshold_antitone P L) as S.
  set (s := Spec.stopThreshold lev) in *. set (s' := Spec.stopThreshold lev') in *.
  assert (M : entry * s' <= entry * s).
  { rewrite (Qmult_comm entry s'), (Qmult_comm entry s).
    apply Qmult_le_compat_r; [exact S | now apply Qlt_le_weak]. }
  cbn [Spec.PriceLevelCalculator snd]. fold s s'.
  split; apply round_monotone.
  - setoid_replace (entry * (1 - s)) with (entry - entry * s) by ring.
    setoid_replace (entry * (1 - s')) with (entry - entry * s') by ring. lra.
  - setoid_replace (entry * (1 + s)) with (entry + entry * s) by ring.
    setoid_replace (entry * (1 + s')) with (entry + entry * s') by ring. lra.
Qed.

End StopAndLeverage.

(** X9: for a positive entry price, a higher leverage never moves the stop
    away from the entry: a LONG stop never falls and a SHORT stop never
    rises when the leverage grows, in both handlers. *)
Theorem higher_leverage_tightens_stop (entry lev lev' : Q) :
  (0 < entry)%Q -> (0 < lev)%Q -> (lev <= lev')%Q ->
  (stopPrice (Part001.directive LONG lev entry)
   <= stopPrice (Part001.directive LONG lev' entry))%Q /\
  (stopPrice (Part001.directive SHORT lev' entry)
   <= stopPrice (Part001.directive SHORT lev entry))%Q /\
  (stopPrice (Part000.directive LONG lev entry)
   <= stopPrice (Part000.directive LONG lev' entry))%Q /\
  (stopPrice (Part000.directive SHORT lev' entry)
   <= stopPrice (Part000.directive SHORT lev entry))%Q.
Proof.
  intros E P L. destruct (spec_stop_tightens E P L) as [Lo Sh].
  rewrite (proj2 (levels_part001 LONG lev entry)),
    (proj2 (levels_part001 LONG lev' entry)),
    (proj2 (levels_part001 SHORT lev entry)),
    (proj2 (levels_part001 SHORT lev' entry)),
    (proj2 (levels_part000 LONG lev entry)),
    (proj2 (levels_part000 LONG lev' entry)),
    (proj2 (levels_part000 SHORT lev entry)),
    (proj2 (levels_part000 SHORT lev' entry)).
  rewrite <- !Zle_Qle. repeat split; assumption.
Qed.

Lemma higher_leverage_tightens_stop_witness :
  (0 < 119500)%Q /\ (0 < 30)%Q /\ (30 <= 50)%Q /\
  (stopPrice (Part001.directive LONG 30 119500)
   <= stopPrice (Part001.directive LONG 50 119500))%Q /\
  (stopPrice (Part001.directive SHORT 50 119500)
   <= stopPrice (Part001.directive SHORT 30 119500))%Q.
Proof.
  assert (E : (0 < 119500)%Q) by reflexivity.
  assert (P : (0 < 30)%Q) by reflexivity.
  assert (L : (30 <= 50)%Q) by discriminate.
  pose proof (@higher_leverage_tightens_stop 119500 30 50 E P L) as T.
  exact (conj E (conj P (conj L (conj (proj1 T) (proj1 (proj2 T)))))).
Defined.

(** ** The two handlers against each other *)

Lemma directive_ext (num : Type) (a b : Directive num) :
  signal a = signal b -> entryPrice a = entryPrice b ->
  targetPrice a = targetPrice b -> stopPrice a = stopPrice b ->
  leverage a = leverage b -> a = b.
Proof. destruct a, b. cbn. now intros -> -> -> -> ->. Qed.



(** * The price endpoint *)

(** X11: the price endpoint answers every request with status 200; when
    the fetch rejects, the status is not a success, the body does not
    parse or is null, the answer is the fallback price 113279 with change
    -2.76, in any number model. *)
Theorem price_endpoint_always_answers (num : Type) `{Number num}
  (fetched : Completion (BtcPriceApi.TickerResponse num)) :
  BtcPriceApi.answer_status (BtcPriceApi.handler fetched) = 200%Z /\
  (BtcPriceApi.ticker_unavailable fetched = true ->
   BtcPriceApi.answer_json (BtcPriceApi.handler fetched)
   = {| price := of_Z 113279; change24h := decimal (-276) 2 |}).
Proof.
  unfold BtcPriceApi.handler, BtcPriceApi.body, BtcPriceApi.ticker_unavailable.
  destruct fetched as [[ok [[|usd change]|]]|]; try destruct ok; cbn;
    split; try reflexivity; intros A; discriminate A.
Qed.

Lemma price_endpoint_always_answers_witness :
  BtcPriceApi.ticker_unavailable
    (Normal {| BtcPriceApi.ticker_ok := false;
               BtcPriceApi.ticker_json := Normal (BtcPriceApi.Ticker (Some 1%Q) None) |})
  = true /\
  BtcPriceApi.answer_json
    (BtcPriceApi.handler
       (Normal {| BtcPriceApi.ticker_ok := false;
                  BtcPriceApi.ticker_json := Normal (BtcPriceApi.Ticker (Some 1%Q) None) |}))
  = {| price := of_Z 113279; change24h := decimal (-276) 2 |}.
Proof.
  split; [reflexivity|].
  apply (@price_endpoint_always_answers Q _
           (Normal {| BtcPriceApi.ticker_ok := false;
                      BtcPriceApi.ticker_json :=
                        Normal (BtcPriceApi.Ticker (Some 1%Q) None) |})).
  reflexivity.
Defined.

Lemma endpoint_price_integral (fetched : Completion (BtcPriceApi.TickerResponse Q)) :
  integral (price (BtcPriceApi.answer_json (BtcPriceApi.handler fetched))).
Proof.
  unfold BtcPriceApi.handler, BtcPriceApi.body.
  destruct fetched as [[ok [[|usd change]|]]|]; try destruct ok; cbn;
    try (exists 113279%Z; reflexivity).
  eexists; reflexivity.
Qed.


(** * The client component *)

Section ClientFacts.
Context {num : Type} `{Number num}.
Import Client.

Lemma get_opt_normal (v : JValue num) (key : string) :
  exists x, get_opt v key = Normal x.
Proof. destruct v; cbn; eexists; reflexivity. Qed.

Lemma price_update_sets (priceData : JValue num) :
  exists b, price_update priceData = Normal (SetBtcPrice (Some b)) /\
            (no_price priceData = true -> b = default_price).
Proof.
  unfold price_update, no_price.
  destruct priceData as [| |b|n|s|items|fields]; cbn;
    try (eexists; split; [reflexivity|reflexivity]).
  - destruct b; eexists; split; reflexivity.
  - destruct (js_not n); cbn; eexists; split; reflexivity.
  - destruct s; eexists; split; reflexivity.
  - destruct (lookup "price" fields); cbn;
      try (eexists; split; [reflexivity|reflexivity]).
    eexists; split; [reflexivity | intros A; discriminate A].
Qed.

(** What [setReport] receives for an object payload. *)
Lemma report_update_object (fields : list (string * JValue num)) :
  report_update (JObj fields) =
  Normal (SetReport (Some
    (if no_signal (JObj fields) then default_report
     else {| direction := first_truthy (lookup "signal" fields)
                                       (lookup "direction" fields) (JStr "LONG");
             entryPrice := first_present (lookup "entryPrice" fields)
                                         (nested_entry (lookup "technicalData" fields))
                                         (JNum (of_Z 119500));
             targetPrice := first_present (lookup "targetPrice" fields)
                                          (lookup "exitPrice" fields)
                                          (JNum (of_Z 121500));
             stopPrice := first_present (lookup "stopPrice" fields)
                                        (lookup "stopLoss" fields)
                                        (JNum (of_Z 119200));
             leverage := first_present (lookup "leverage" fields) JUndefined
                                       (JNum (of_Z 30)) |}))).
Proof.
  unfold report_update, no_signal, first_truthy, first_present, nested_entry,
    and_then, or_else, coalesce, get_opt.
  cbn [get bind truthy].
  destruct (lookup "technicalData" fields) as [| |b|n|s|items|inner];
    (destruct (truthy (lookup "signal" fields)) eqn:S;
     [|destruct (truthy (lookup "direction" fields)) eqn:D]);
    cbn -[lookup]; rewrite ?S, ?D; cbn -[lookup];
    repeat match goal with
           | |- context [nullish ?x] => destruct (nullish x) eqn:?; cbn -[lookup]
           end;
    try congruence; reflexivity.
Qed.

Lemma report_update_other (reportData : JValue num) :
  (forall fields, reportData <> JObj fields) ->
  report_update reportData = Normal (SetReport (Some default_report)).
Proof.
  intros NO. unfold report_update, and_then, or_else.
  destruct reportData as [| |b|n|s|items|fields]; cbn; try reflexivity.
  - destruct b; reflexivity.
  - destruct (js_not n) eqn:E; cbn; rewrite ?E; reflexivity.
  - destruct s; reflexivity.
  - now destruct (NO fields).
Qed.

Lemma first_present_complete (a b d : JValue num) :
  nullish d = false -> nullish (first_present a b d) = false.
Proof.
  intros D. unfold first_present.
  destruct (nullish a) eqn:A; [destruct (nullish b) eqn:B|]; assumption.
Qed.

Lemma truthy_not_nullish (v : JValue num) : truthy v = true -> nullish v = false.
Proof. destruct v; cbn; intros T; try reflexivity; discriminate T. Qed.

Lemma report_update_sets (reportData : JValue num) :
  exists r, report_update reportData = Normal (SetReport (Some r)) /\
            complete r = true /\
            truthy (direction r) = true /\
            (no_signal reportData = true -> r = default_report).
Proof.
  assert (Dc : complete default_report = true /\
               truthy (direction default_report) = true) by (split; reflexivity).
  destruct reportData as [| |b|n|s|items|fields];
    try (exists default_report; rewrite report_update_other by discriminate;
         destruct Dc; repeat split; trivial).
  rewrite report_update_object.
  destruct (no_signal (JObj fields)) eqn:NS.
  - exists default_report. destruct Dc. repeat split; trivial.
  - eexists. split; [reflexivity|].
    assert (T : truthy (first_truthy (lookup "signal" fields)
                          (lookup "direction" fields) (JStr "LONG")) = true).
    { unfold first_truthy.
      destruct (truthy (lookup "signal" fields)) eqn:S; [exact S|].
      destruct (truthy (lookup "direction" fields)) eqn:D; [exact D|reflexivity]. }
    split; [|split; [exact T | intros A; discriminate A]].
    unfold complete. cbn [direction entryPrice targetPrice stopPrice leverage].
    rewrite (truthy_not_nullish _ T), !first_present_complete by reflexivity.
    reflexivity.
Qed.

(** The six setter calls of every [startBraincast]. *)
Lemma startBraincast_calls (priceFetched reportFetched : Completion (JValue num)) :
  exists b r,
    startBraincast priceFetched reportFetched =
      [SetScreen Loading; SetBtcPrice None; SetReport None;
       SetBtcPrice (Some b); SetReport (Some r); SetScreen Report] /\
    price_update (settled priceFetched) = Normal (SetBtcPrice (Some b)) /\
    report_update (settled reportFetched) = Normal (SetReport (Some r)).
Proof.
  destruct (price_update_sets (settled priceFetched)) as (b & Pb & _).
  destruct (report_update_sets (settled reportFetched)) as (r & Rr & _).
  exists b, r. unfold startBraincast, try_block. rewrite Pb, Rr.
  repeat split; reflexivity.
Qed.

End ClientFacts.


(** X14: a payload without a truthy [signal] or [direction] (a failed
    request, a non-object, or both fields missing, null, empty, zero or
    false) gives the default report LONG, 119500, 121500, 119200, 30, even
    if it carries prices; a payload without a numeric [price] gives the
    default price 113279 with change -2.76. *)
Theorem payloads_without_data_give_defaults (num : Type) `{Number num}
  (st : Client.State num) (priceFetched reportFetched : Completion (Client.JValue num)) :
  (no_signal (Client.settled reportFetched) = true ->
   Client.report (Client.run st (Client.startBraincast priceFetched reportFetched))
   = Some {| Client.direction := Client.JStr "LONG";
             Client.entryPrice := Client.JNum (of_Z 119500);
             Client.targetPrice := Client.JNum (of_Z 121500);
             Client.stopPrice := Client.JNum (of_Z 119200);
             Client.leverage := Client.JNum (of_Z 30) |}) /\
  (no_price (Client.settled priceFetched) = true ->
   Client.btcPrice (Client.run st (Client.startBraincast priceFetched reportFetched))
   = Some {| price := of_Z 113279; change24h := decimal (-276) 2 |}).
Proof.
  destruct (price_update_sets (Client.settled priceFetched)) as (b & Pb & Db).
  destruct (report_update_sets (Client.settled reportFetched)) as (r & Rr & _ & _ & Dr).
  unfold Client.startBraincast, Client.try_block. rewrite Pb, Rr. cbn.
  split; intros A; [rewrite (Dr A) | rewrite (Db A)]; reflexivity.
Qed.

Lemma payloads_without_data_give_defaults_witness :
  let st : Client.State Q := Client.initial in
  let prices_only : Client.JValue Q :=
    Client.JObj [("signal"%string, Client.JStr "");
                 ("entryPrice"%string, Client.JNum 42%Q)] in
  no_signal (Client.settled (Normal prices_only)) = true /\
  no_price (Client.settled (Throw : Completion (Client.JValue Q))) = true /\
  Client.report (Client.run st (Client.startBraincast Throw (Normal prices_only)))
  = Some Client.default_report /\
  Client.btcPrice (Client.run st (Client.startBraincast Throw (Normal prices_only)))
  = Some Client.default_price.
Proof.
  cbv zeta.
  pose proof (@payloads_without_data_give_defaults Q _ Client.initial Throw
                (Normal (Client.JObj [("signal"%string, Client.JStr "");
                                      ("entryPrice"%string, Client.JNum 42%Q)])))
    as [R P].
  split; [reflexivity|]. split; [reflexivity|].
  split; [exact (R eq_refl) | exact (P eq_refl)].
Defined.

(** ** The states the component passes through *)

Lemma has_data_not_blank (num : Type) (st : Client.State num) :
  has_data st -> Client.render st <> Client.Blank.
Proof.
  unfold has_data, Client.render. intros D.
  destruct (Client.screen st); try discriminate.
  destruct (D eq_refl) as (b & r & -> & ->). discriminate.
Qed.

Lemma start_keeps_data (num : Type) `{Number num} (st : Client.State num)
  (priceFetched reportFetched : Completion (Client.JValue num)) (done : nat) :
  has_data st ->
  has_data (Client.run st (firstn done (Client.startBraincast priceFetched reportFetched))).
Proof.
  intros D.
  destruct (startBraincast_calls priceFetched reportFetched) as (b & r & -> & _ & _).
  do 6 (destruct done as [|done];
        [first [exact D | intros S; discriminate S]|]).
  intros _. exists b, r. destruct done; split; reflexivity.
Qed.

Lemma reachable_has_data (num : Type) `{Number num} (st : Client.State num) :
  Client.reachable st -> has_data st.
Proof.
  induction 1 as [|st pf rf done R IH|st R IH].
  - intros S. discriminate S.
  - now apply start_keeps_data.
  - intros S. discriminate S.
Qed.



(** ** From the endpoints to the screen *)

Lemma report_update_wire (sent : Directive Q) :
  Client.report_update (wire sent) = Normal (Client.SetReport (Some (shown sent))).
Proof. destruct sent as [[|] e t s l]; reflexivity. Qed.


Lemma price_update_wire (sent : BtcPrice Q) :
  integral (price sent) ->
  Client.price_update (wire_price sent) = Normal (Client.SetBtcPrice (Some sent)).
Proof.
  intros [z Z]. destruct sent as [p c]. cbn in Z. subst p.
  cbn. unfold ExactNum.round.
  change (Qfloor (inject_Z z + (1 # 2))) with (Spec.round (inject_Z z)).
  now rewrite round_inject.
Qed.


(** ** The target figure of the report page *)

Section TargetPercent.
Local Open Scope Q_scope.

Lemma percent_monotone (e x y : Q) : 0 < e -> x <= y -> x / e * 100 <= y / e * 100.
Proof.
  intros E L. unfold Qdiv.
  apply Qmult_le_compat_r; [|discriminate].
  apply Qmult_le_compat_r; [exact L|].
  apply Qinv_le_0_compat. now apply Qlt_le_weak.
Qed.

Lemma target_gap (direction : Direction) (lev e : Q) :
  0 < e ->
  (17 # 1000) * e - (1 # 2)
  <= Qabs (inject_Z (fst (Spec.PriceLevelCalculator e direction lev)) - e)
  <= (17 # 1000) * e + (1 # 2).
Proof.
  intros E.
  destruct direction; cbn [Spec.PriceLevelCalculator fst]; unfold Spec.targetPct.
  - pose proof (round_nearest (e * (1 + (17 # 1000)))) as [Lo Hi].
    set (t := inject_Z (Spec.round (e * (1 + (17 # 1000))))) in *.
    split.
    + apply Qle_trans with (t - e); [lra | apply Qle_Qabs].
    + apply Qabs_Qle_condition. split; lra.
  - pose proof (round_nearest (e * (1 - (17 # 1000)))) as [Lo Hi].
    set (t := inject_Z (Spec.round (e * (1 - (17 # 1000))))) in *.
    split.
    + apply Qle_trans with (- (t - e)); [lra|].
      rewrite <- (Qabs_opp (t - e)). apply Qle_Qabs.
    + apply Qabs_Qle_condition. split; lra.
Qed.

Lemma percent_of_gap (e g : Q) :
  0 < e ->
  (17 # 1000) * e - (1 # 2) <= g <= (17 # 1000) * e + (1 # 2) ->
  (17 # 10) - 50 / e <= g / e * 100 <= (17 # 10) + 50 / e.
Proof.
  intros E [Lo Hi]. split.
  - setoid_replace ((17 # 10) - 50 / e) with (((17 # 1000) * e - (1 # 2)) / e * 100)
      by (field; lra).
    now apply percent_monotone.
  - setoid_replace ((17 # 10) + 50 / e) with (((17 # 1000) * e + (1 # 2)) / e * 100)
      by (field; lra).
    now apply percent_monotone.
Qed.

End TargetPercent.



(** * The regular expression *)

Section RegexFacts.
Import Regex.

Lemma literal_app (lit s : list CodeUnit) : literal lit (lit ++ s) = Some s.
Proof.
  induction lit as [|l lit IH]; [now destruct s|].
  cbn. now rewrite N.eqb_refl.
Qed.

Lemma digit_not_space (c : CodeUnit) : is_digit c = true -> is_space c = false.
Proof.
  unfold is_digit, is_space. intros D.
  apply andb_true_iff in D as [Lo Hi].
  apply N.leb_le in Lo, Hi.
  cbn [existsb].
  repeat match goal with
         | |- context [N.eqb c ?k] => destruct (N.eqb_spec c k); [lia|]
         end.
  cbn. destruct (N.leb_spec 8192 c); [lia | reflexivity].
Qed.

Lemma space_not_digit (c : CodeUnit) : is_space c = true -> is_digit c = false.
Proof.
  intros S. destruct (is_digit c) eqn:D; [|reflexivity].
  apply digit_not_space in D. congruence.
Qed.

Lemma skip_spaces_app (w : list CodeUnit) (c : CodeUnit) (s : list CodeUnit) :
  is_blank w -> is_space c = false -> skip_spaces (w ++ c :: s) = c :: s.
Proof.
  intros B C. induction B as [|x w X _ IH]; cbn.
  - now rewrite C.
  - now rewrite X.
Qed.

Lemma digit_run_app (g s : list CodeUnit) :
  Forall (fun c => is_digit c = true) g -> no_digit_ahead s ->
  digit_run (g ++ s) = (g, s).
Proof.
  intros G A. induction G as [|x g X _ IH]; cbn.
  - destruct s as [|c s]; [reflexivity|]. cbn in A |- *. now rewrite A.
  - now rewrite X, IH.
Qed.

Lemma group_app (g s : list CodeUnit) :
  is_group g -> no_digit_ahead s -> group (g ++ s) = Some (value g, s).
Proof.
  intros [NE G] A. unfold group. rewrite (@digit_run_app _ _ G A).
  destruct g; [contradiction | reflexivity].
Qed.

Lemma field_app (name : string) (w g s : list CodeUnit) :
  is_blank w -> is_group g -> no_digit_ahead s ->
  field name (codes name ++ w ++ g ++ s) = Some (value g, s).
Proof.
  intros B G A. unfold field. rewrite literal_app.
  destruct G as [NE G]. destruct g as [|c g]; [contradiction|].
  inversion G as [|? ? C G']; subst.
  change ((c :: g) ++ s) with (c :: (g ++ s)).
  rewrite (@skip_spaces_app _ _ _ B (@digit_not_space _ C)).
  change (c :: g ++ s) with ((c :: g) ++ s).
  apply group_app; [split; [discriminate | exact G] | exact A].
Qed.

Lemma blank_then_letter (w : list CodeUnit) (c : CodeUnit) (s : list CodeUnit) :
  is_blank w -> is_digit c = false -> no_digit_ahead (w ++ c :: s).
Proof.
  intros B C. destruct B as [|x w X _]; cbn; [exact C|].
  now apply space_not_digit.
Qed.

(** A spaced row is matched where it starts, up to its last digit. *)
Lemma match_here_spaced (w1 w2 w3 w4 w5 : list CodeUnit)
  (groups : list CodeUnit * list CodeUnit * list CodeUnit) (rest : list CodeUnit) :
  is_blank w1 -> is_blank w2 -> is_blank w3 -> is_blank w4 -> is_blank w5 ->
  are_groups groups -> no_digit_ahead rest ->
  match_here (spaced_row w1 w2 w3 w4 w5 groups ++ rest)
  = Some (values groups, rest).
Proof.
  intros B1 B2 B3 B4 B5 G A. destruct groups as [[u d] n].
  destruct G as (Gu & Gd & Gn). unfold spaced_row, match_here, values.
  rewrite <- !app_assoc.
  rewrite (@field_app "Up:" _ _ _ B1 Gu)
    by (apply blank_then_letter; [exact B2 | reflexivity]).
  change (codes "Down:") with (68%N :: List.tl (codes "Down:")) at 1.
  rewrite <- app_comm_cons, (@skip_spaces_app _ _ _ B2) by reflexivity.
  change (68%N :: List.tl (codes "Down:") ++ ?x) with (codes "Down:" ++ x).
  rewrite (@field_app "Down:" _ _ _ B3 Gd)
    by (apply blank_then_letter; [exact B4 | reflexivity]).
  change (codes "Neutral:") with (78%N :: List.tl (codes "Neutral:")) at 1.
  rewrite <- app_comm_cons, (@skip_spaces_app _ _ _ B4) by reflexivity.
  change (78%N :: List.tl (codes "Neutral:") ++ ?x) with (codes "Neutral:" ++ x).
  now rewrite (@field_app "Neutral:" _ _ _ B5 Gn A).
Qed.

(** *** Every match consumes text, so the fuel suffices *)

Lemma literal_length (lit s r : list CodeUnit) :
  literal lit s = Some r -> (List.length r + List.length lit = List.length s)%nat.
Proof.
  revert s. induction lit as [|l lit IH]; intros s E.
  - cbn in E. injection E as <-. cbn. lia.
  - destruct s as [|c s]; [discriminate E|]. cbn in E.
    destruct (N.eqb l c); [|discriminate E].
    apply IH in E. cbn. lia.
Qed.

Lemma skip_spaces_length (s : list CodeUnit) :
  (List.length (skip_spaces s) <= List.length s)%nat.
Proof.
  induction s as [|c s IH]; cbn; [lia|].
  destruct (is_space c); cbn; lia.
Qed.

Lemma digit_run_length (s : list CodeUnit) :
  (List.length (snd (digit_run s)) <= List.length s)%nat.
Proof.
  induction s as [|c s IH]; cbn; [lia|].
  destruct (is_digit c); [|cbn; lia].
  destruct (digit_run s) as [run remaining]. cbn in *. lia.
Qed.

Lemma field_length (name : string) (s : list CodeUnit) (v : N) (r : list CodeUnit) :
  field name s = Some (v, r) ->
  (List.length r + List.length (codes name) <= List.length s)%nat.
Proof.
  unfold field, group. intros E.
  destruct (literal (codes name) s) as [after|] eqn:L; [|discriminate E].
  apply literal_length in L.
  pose proof (skip_spaces_length after) as S.
  pose proof (digit_run_length (skip_spaces after)) as D.
  destruct (digit_run (skip_spaces after)) as [[|c run] remaining];
    [discriminate E|].
  injection E as _ <-. cbn in D. lia.
Qed.

Lemma match_here_length (s : list CodeUnit) (u d n : N) (r : list CodeUnit) :
  match_here s = Some (u, d, n, r) -> (List.length r < List.length s)%nat.
Proof.
  unfold match_here. intros E.
  destruct (field "Up:" s) as [[u' s1]|] eqn:F1; [|discriminate E].
  destruct (field "Down:" (skip_spaces s1)) as [[d' s2]|] eqn:F2; [|discriminate E].
  destruct (field "Neutral:" (skip_spaces s2)) as [[n' s3]|] eqn:F3; [|discriminate E].
  injection E as _ _ _ <-.
  apply field_length in F1, F2, F3.
  pose proof (skip_spaces_length s1). pose proof (skip_spaces_length s2).
  change (List.length (codes "Up:")) with 3%nat in F1. lia.
Qed.

Lemma exec_all_fuel (fuel : nat) (s : list CodeUnit) :
  (List.length s <= fuel)%nat -> exec_all fuel s = matches_of s.
Proof.
  unfold matches_of.
  remember (List.length s) as len eqn:Len.
  revert fuel s Len.
  induction len as [len IH] using (well_founded_induction lt_wf).
  intros fuel s Len F.
  destruct s as [|c s]; [subst; now destruct fuel|].
  cbn in Len. subst len. destruct fuel as [|fuel]; [cbn in F; lia|].
  cbn [exec_all List.length].
  destruct (match_here (c :: s)) as [[[[u d] n] r]|] eqn:M.
  - apply match_here_length in M. cbn in M, F. f_equal.
    rewrite (IH (List.length r)) by lia.
    symmetry. apply (IH (List.length r)); lia.
  - cbn in F.
    rewrite (IH (List.length s)) by lia.
    symmetry. apply (IH (List.length s)); lia.
Qed.

End RegexFacts.

Section RegexLoop.
Import Regex.

Lemma matches_of_step (s : list CodeUnit) (u d n : N) (r : list CodeUnit) :
  match_here s = Some (u, d, n, r) -> matches_of s = (u, d, n) :: matches_of r.
Proof.
  intros M. pose proof (match_here_length _ M) as L.
  unfold matches_of at 1.
  destruct s as [|c s]; [cbn in L; lia|].
  cbn [List.length exec_all]. rewrite M. f_equal.
  apply exec_all_fuel. cbn in L. lia.
Qed.

Lemma matches_of_skip (c : CodeUnit) (s : list CodeUnit) :
  match_here (c :: s) = None -> matches_of (c :: s) = matches_of s.
Proof.
  intros M. unfold matches_of at 1. cbn [List.length exec_all]. now rewrite M.
Qed.

Lemma match_here_needs_U (c : CodeUnit) (s : list CodeUnit) :
  c <> 85%N -> match_here (c :: s) = None.
Proof.
  intros NU. unfold match_here, field.
  change (literal (codes "Up:") (c :: s))
    with (if N.eqb 85 c then literal (List.tl (codes "Up:")) s else None).
  destruct (N.eqb_spec 85 c); [congruence | reflexivity].
Qed.

Lemma no_U_no_match (html : list CodeUnit) :
  Forall (fun c => c <> 85%N) html -> matches_of html = [].
Proof.
  induction 1 as [|c html NU _ IH]; [reflexivity|].
  now rewrite (@matches_of_skip _ _ (@match_here_needs_U _ _ NU)).
Qed.

End RegexLoop.

(** X19: a row [Up: u Down: d Neutral: n] is matched with any white space,
    none included, after each label and before [Down:] and [Neutral:]; the
    groups are read as decimal numbers (leading zeros allowed), the match
    ends at the first code unit that is not a digit, and the scan goes on
    from there. *)
Theorem spaced_row_is_matched (w1 w2 w3 w4 w5 : list Regex.CodeUnit)
  (groups : list Regex.CodeUnit * list Regex.CodeUnit * list Regex.CodeUnit)
  (rest : list Regex.CodeUnit) :
  Regex.is_blank w1 -> Regex.is_blank w2 -> Regex.is_blank w3 ->
  Regex.is_blank w4 -> Regex.is_blank w5 ->
  Regex.are_groups groups -> Regex.no_digit_ahead rest ->
  Regex.matches_of (Regex.spaced_row w1 w2 w3 w4 w5 groups ++ rest)
  = Regex.values groups :: Regex.matches_of rest.
Proof.
  intros B1 B2 B3 B4 B5 G A. destruct groups as [[u d] n].
  apply matches_of_step.
  exact (@match_here_spaced w1 w2 w3 w4 w5 (u, d, n) rest B1 B2 B3 B4 B5 G A).
Qed.

Lemma spaced_row_is_matched_witness :
  let groups := (Regex.codes "6", Regex.codes "12", Regex.codes "007") in
  let tab := [9%N] in
  let rest := Regex.codes "</td>" in
  Regex.is_blank [] /\ Regex.is_blank tab /\
  Regex.are_groups groups /\ Regex.no_digit_ahead rest /\
  Regex.matches_of (Regex.spaced_row [] [] tab tab [] groups ++ rest)
  = (6, 12, 7)%N :: Regex.matches_of rest.
Proof.
  cbv zeta.
  assert (B0 : Regex.is_blank []) by constructor.
  assert (B1 : Regex.is_blank [9%N]) by (repeat constructor).
  assert (G : Regex.are_groups (Regex.codes "6", Regex.codes "12", Regex.codes "007"))
    by (repeat split; try discriminate; repeat constructor).
  assert (A : Regex.no_digit_ahead (Regex.codes "</td>")) by reflexivity.
  exact (conj B0 (conj B1 (conj G (conj A
           (@spaced_row_is_matched [] [] [9%N] [9%N] []
              (Regex.codes "6", Regex.codes "12", Regex.codes "007")
              (Regex.codes "</td>") B0 B0 B1 B1 B0 G A))))).
Defined.

(** X20: a page printed as rows [Up: u Down: d Neutral: n], each followed
    by a separator that is neither a digit nor the letter U, is read back
    as the list of the rows' three numbers, in order: nothing is lost,
    merged or added, whatever the number of rows. *)
Theorem printed_rows_are_read_back (sep : Regex.CodeUnit)
  (groups : list (list Regex.CodeUnit * list Regex.CodeUnit * list Regex.CodeUnit)) :
  Regex.is_digit sep = false -> sep <> 85%N ->
  Forall Regex.are_groups groups ->
  Regex.matches_of (Regex.rows sep groups) = map Regex.values groups.
Proof.
  intros D NU G. induction G as [|g groups Gg _ IH]; [reflexivity|].
  unfold Regex.rows. cbn [map List.concat]. fold (Regex.rows sep groups).
  destruct g as [[u d] n].
  change (Regex.row (u, d, n))
    with (Regex.spaced_row [32%N] [32%N] [32%N] [32%N] [32%N] (u, d, n)).
  rewrite <- app_assoc. cbn [app].
  assert (B : Regex.is_blank [32%N]) by (repeat constructor).
  rewrite (@matches_of_step _ _ _ _ _
             (@match_here_spaced _ _ _ _ _ (u, d, n) (sep :: Regex.rows sep groups)
                B B B B B Gg D)).
  rewrite (@matches_of_skip _ _ (@match_here_needs_U _ _ NU)), IH.
  reflexivity.
Qed.

Lemma printed_rows_are_read_back_witness :
  let page := [(Regex.codes "6", Regex.codes "6", Regex.codes "0");
               (Regex.codes "10", Regex.codes "2", Regex.codes "0")] in
  Regex.is_digit 10%N = false /\ 10%N <> 85%N /\
  Forall Regex.are_groups page /\
  Regex.matches_of (Regex.rows 10%N page) = [(6, 6, 0); (10, 2, 0)]%N.
Proof.
  cbv zeta.
  assert (D : Regex.is_digit 10%N = false) by reflexivity.
  assert (NU : 10%N <> 85%N) by discriminate.
  assert (G : Forall Regex.are_groups
                [(Regex.codes "6", Regex.codes "6", Regex.codes "0");
                 (Regex.codes "10", Regex.codes "2", Regex.codes "0")])
    by (repeat constructor; discriminate).
  exact (conj D (conj NU (conj G (@printed_rows_are_read_back 10%N _ D NU G)))).
Defined.

(** X21: when the text holds no letter U (the page changed, is empty or is
    an error page), the expression matches nothing, every timeframe is
    padded with zeros, and both handlers answer SHORT with leverage 30,
    not the static LONG directive of the [catch] branch; in exact
    arithmetic and in doubles. *)
Theorem text_without_rows_gives_short_30 (html : list Regex.CodeUnit)
  (price : Completion (PriceResponse Q)) (price64 : Completion (PriceResponse float)) :
  Forall (fun c => c <> 85%N) html ->
  Regex.matches_of html = [] /\
  (let sent := json (Part001.handler (serving (Regex.matches_of html) price)) in
   signal sent = SHORT /\ leverage sent = of_Z 30) /\
  (let sent := json (Part000.handler (serving (Regex.matches_of html) price)) in
   signal sent = SHORT /\ leverage sent = of_Z 30) /\
  (let sent := json (Part001.handler (serving (Regex.matches_of html) price64)) in
   signal sent = SHORT /\ leverage sent = of_Z 30) /\
  (let sent := json (Part000.handler (serving (Regex.matches_of html) price64)) in
   signal sent = SHORT /\ leverage sent = of_Z 30).
Proof.
  intros NU. rewrite (no_U_no_match NU). cbv zeta.
  rewrite !handler_part001_serving, !handler_part000_serving. cbn [json].
  unfold Part001.compute, Part000.compute.
  rewrite !signal_part001, !leverage_part001_sent.
  unfold Part000.directive. cbn [signal leverage].
  repeat split; vm_compute; reflexivity.
Qed.

Lemma text_without_rows_gives_short_30_witness :
  Forall (fun c => c <> 85%N) (Regex.codes "<html>503</html>") /\
  Regex.matches_of (Regex.codes "<html>503</html>") = [].
Proof.
  assert (NU : Forall (fun c => c <> 85%N) (Regex.codes "<html>503</html>"))
    by (repeat constructor; discriminate).
  exact (conj NU (proj1 (@text_without_rows_gives_short_30 _ Throw Throw NU))).
Defined.
